(** * EDA notebook utilities (notebooks/utils.py): a shallow embedding

    The module under study is a set of helper functions over a pandas
    DataFrame: a loader, a quality checker, a cleaner, a feature builder, the
    pipeline that chains them, two persistence helpers and three statistics
    helpers.  The embedding keeps the source's names and control flow.

    Modelling conventions.
    - Numbers are exact rationals ([Q]); the missing marker (NaN, None, NaT)
      is a value of its own.  Rounding of binary floating point is not
      modelled; the worked examples of the specification only involve dyadic
      values, for which double arithmetic is exact.
    - A raised Python exception is the [Raise] branch of [result].
    - Console output is not modelled, except that an expression evaluated for
      printing is evaluated (it can raise).
    - Library calls (pandas, numpy) are modelled by their documented behaviour;
      what cannot be modelled concretely (date parsing, type inference of the
      CSV reader, reductions over object columns) is a field of the
      environment [Env], as is the file system.  [pd.to_datetime] is taken
      cell by cell.
    - Cells are nulls, numbers, strings, timestamps and calendar dates;
      booleans, categories and time zones are left out.
    - The regular expression of the domain extraction is run by a
      backtracking matcher with greedy repetitions, as Python's [re] does.
    - Paths are POSIX paths; the directories and the pickled files live in
      a store whose operations are the fields of [Storage]. *)

From Stdlib Require Import Reals Lra Qreals.
From Stdlib Require Import List String Ascii Bool Arith ZArith QArith Qround.
From Stdlib Require Import Lia Lqa Permutation Sorted.
Import ListNotations.

Set Implicit Arguments.
Local Open Scope Q_scope.

(** ** Exceptions and results *)

Inductive exn : Type :=
| KeyError (key : string)
| AttributeError
| TypeError
| ValueError
| ZeroDivisionError
| FileNotFoundError
| ParserError.

Inductive result (A : Type) : Type :=
| Ok (a : A)
| Raise (e : exn).

Arguments Ok {A} a.
Arguments Raise {A} e.

Definition bind {A B : Type} (m : result A) (k : A -> result B) : result B :=
  match m with
  | Ok a => k a
  | Raise e => Raise e
  end.

Notation "x <- m ;; k" := (bind m (fun x => k))
  (at level 61, m at next level, right associativity).

Definition is_ok {A : Type} (m : result A) : bool :=
  match m with Ok _ => true | Raise _ => false end.

(** ** Numbers *)

Definition Qnat (n : nat) : Q := inject_Z (Z.of_nat n).

(** A numpy float: a finite value, an infinity or NaN. *)
Inductive npfloat : Type :=
| Fin (q : Q)
| PInf
| NInf
| NaN.

(** numpy's true division of two finite values: division by zero gives NaN or a
    signed infinity (and a warning), it does not raise. *)
Definition true_divide (a b : Q) : npfloat :=
  if Qeq_bool b 0 then
    if Qeq_bool a 0 then NaN
    else if Qle_bool 0 a then PInf else NInf
  else Fin (a / b).

Definition npfloat_sub (x : npfloat) (y : Q) : npfloat :=
  match x with
  | Fin q => Fin (q - y)
  | other => other
  end.

(** Equality of numpy floats up to the representation of fractions. *)
Definition npfloat_eq (x y : npfloat) : Prop :=
  match x, y with
  | Fin p, Fin q => p == q
  | PInf, PInf | NInf, NInf | NaN, NaN => True
  | _, _ => False
  end.

Definition result_eq (x y : result npfloat) : Prop :=
  match x, y with
  | Ok a, Ok b => npfloat_eq a b
  | Raise e, Raise e' => e = e'
  | _, _ => False
  end.

(** ** numpy helpers used by the statistics functions *)

Fixpoint insert (x : Q) (l : list Q) : list Q :=
  match l with
  | [] => [x]
  | y :: t => if Qle_bool x y then x :: y :: t else y :: insert x t
  end.

(** [np.sort]: ascending order. *)
Definition np_sort (l : list Q) : list Q := fold_right insert [] l.

Definition np_sum (l : list Q) : Q := fold_right Qplus 0 l.

(** [np.arange(a, b)] for naturals [a <= b]. *)
Definition np_arange (a b : nat) : list Q := map Qnat (seq a (b - a)).

(** Elementwise product of two arrays of equal length. *)
Definition np_mul (a b : list Q) : list Q :=
  map (fun p => fst p * snd p) (combine a b).

(** ** gini_coefficient *)

Definition gini_coefficient (values : list Q) : result npfloat :=
  let sorted_values := np_sort values in
  let n := List.length values in
  let index := np_arange 1 (n + 1) in
  let lhs := true_divide (2 * np_sum (np_mul index sorted_values))
                         (Qnat n * np_sum sorted_values) in
  (* [(n + 1) / n] divides two Python integers *)
  if Nat.eqb n 0 then Raise ZeroDivisionError
  else Ok (npfloat_sub lhs (Qnat (n + 1) / Qnat n)).


(** ** The tabular data model

    A DataFrame is a row-oriented, column-typed table: named and typed
    columns, and rows that carry their index label. *)

Inductive dtype : Type :=
| Int64
| Int32
| Float64
| Float32
| Object
| Datetime64.

(** A cell: the missing marker (NaN, None or NaT), a number, a string, a
    timestamp (nanoseconds since the epoch) or a calendar date (days since the
    epoch). *)
Inductive cell : Type :=
| NA
| Num (q : Q)
| Str (s : string)
| Time (ns : Z)
| Day (d : Z).

Definition row : Type := (nat * list cell)%type.

Record DataFrame : Type := mkDataFrame {
  columns : list (string * dtype);
  rows : list row
}.

Record Series : Type := mkSeries {
  s_dtype : dtype;
  s_items : list (nat * cell)
}.

Definition dtype_eqb (a b : dtype) : bool :=
  match a, b with
  | Int64, Int64 | Int32, Int32 | Float64, Float64 | Float32, Float32
  | Object, Object | Datetime64, Datetime64 => true
  | _, _ => false
  end.

(** [len(df)] *)
Definition len (df : DataFrame) : nat := List.length (rows df).

Definition column_names (df : DataFrame) : list string := map fst (columns df).

(** Position of the first column with a given name. *)
Fixpoint col_index (name : string) (cols : list (string * dtype)) : option nat :=
  match cols with
  | [] => None
  | (c, _) :: t =>
      if String.eqb name c then Some 0%nat
      else option_map S (col_index name t)
  end.

(** ['name' in df.columns] *)
Definition has_column (name : string) (df : DataFrame) : bool :=
  match col_index name (columns df) with Some _ => true | None => false end.

Definition dtype_at (j : nat) (df : DataFrame) : dtype :=
  snd (nth j (columns df) (EmptyString, Object)).

Definition cell_at (j : nat) (r : row) : cell := nth j (snd r) NA.

Definition col_values (j : nat) (df : DataFrame) : list cell :=
  map (cell_at j) (rows df).

(** [df[name]]: raises KeyError when the column is absent. *)
Definition getitem (df : DataFrame) (name : string) : result Series :=
  match col_index name (columns df) with
  | Some j => Ok (mkSeries (dtype_at j df)
                           (map (fun r => (fst r, cell_at j r)) (rows df)))
  | None => Raise (KeyError name)
  end.

Definition values (s : Series) : list cell := map snd (s_items s).

Fixpoint replace_nth {A : Type} (j : nat) (v : A) (l : list A) {struct l}
  : list A :=
  match l, j with
  | [], _ => []
  | _ :: t, O => v :: t
  | x :: t, S j' => x :: replace_nth j' v t
  end.

(** Store one value per row, at position [j] or as a new last cell. *)
Fixpoint set_cells (pos : option nat) (rs : list row) (vs : list cell)
  : list row :=
  match rs, vs with
  | r :: rs', v :: vs' =>
      (fst r, match pos with
              | Some j => replace_nth j v (snd r)
              | None => snd r ++ [v]
              end) :: set_cells pos rs' vs'
  | _, _ => rs
  end.

(** [df[name] = values] with a given dtype: an existing column is overwritten
    in place, a new one is appended. *)
Definition setitem (df : DataFrame) (name : string) (dt : dtype)
  (vs : list cell) : DataFrame :=
  match col_index name (columns df) with
  | Some j => mkDataFrame (replace_nth j (name, dt) (columns df))
                          (set_cells (Some j) (rows df) vs)
  | None => mkDataFrame (columns df ++ [(name, dt)])
                        (set_cells None (rows df) vs)
  end.

(** [isnull] of one cell. *)
Definition isnull (c : cell) : bool :=
  match c with NA => true | _ => false end.

Definition notna (c : cell) : bool := negb (isnull c).

(** [series.isnull().sum()] *)
Definition null_count (cs : list cell) : nat :=
  List.length (filter isnull cs).

(** [df.isnull().sum().sum()] *)
Definition total_nulls (df : DataFrame) : nat :=
  list_sum (map (fun r => null_count (snd r)) (rows df)).

(** [df.dropna(subset=[name])] for the column at position [j]. *)
Definition dropna_subset (j : nat) (df : DataFrame) : DataFrame :=
  mkDataFrame (columns df) (filter (fun r => notna (cell_at j r)) (rows df)).

(** [df.dropna()]: rows with a null in any column are removed. *)
Definition dropna (df : DataFrame) : DataFrame :=
  mkDataFrame (columns df)
              (filter (fun r => negb (existsb isnull (snd r))) (rows df)).

(** Equality of cells as pandas' [duplicated] sees it: nulls are equal to each
    other, numbers are compared by value. *)
Definition cell_eqb (a b : cell) : bool :=
  match a, b with
  | NA, NA => true
  | Num p, Num q => Qeq_bool p q
  | Str s, Str t => String.eqb s t
  | Time x, Time y => Z.eqb x y
  | Day x, Day y => Z.eqb x y
  | _, _ => false
  end.

Fixpoint cells_eqb (a b : list cell) : bool :=
  match a, b with
  | [], [] => true
  | x :: a', y :: b' => cell_eqb x y && cells_eqb a' b'
  | _, _ => false
  end.

(** [duplicated(keep='first')] over a list of keys, given the keys seen so
    far: an entry is flagged when an equal one came before it. *)
Fixpoint duplicated_from {K : Type} (eqb : K -> K -> bool) (seen : list K)
  (keys : list K) : list bool :=
  match keys with
  | [] => []
  | k :: t =>
      if existsb (eqb k) seen then true :: duplicated_from eqb seen t
      else false :: duplicated_from eqb (k :: seen) t
  end.

Definition duplicated (df : DataFrame) : list bool :=
  duplicated_from cells_eqb [] (map snd (rows df)).

Definition count_true (m : list bool) : nat :=
  List.length (filter (fun b => b) m).

(** Keep the entries whose flag is [false]. *)
Fixpoint drop_flagged {A : Type} (l : list A) (flags : list bool) : list A :=
  match l, flags with
  | x :: l', b :: f' =>
      if b then drop_flagged l' f' else x :: drop_flagged l' f'
  | _, _ => l
  end.

(** [df.drop_duplicates()]: first occurrences survive, in their order. *)
Definition drop_duplicates (df : DataFrame) : DataFrame :=
  mkDataFrame (columns df) (drop_flagged (rows df) (duplicated df)).

(** ** Library behaviour that is taken as given *)

Inductive file : Type :=
| Csv (header : list string) (records : list (list string))
| Garbage.

(** The environment of a run: the library behaviour that the embedding does
    not compute itself, and the file system. *)
Class Env : Type := {
  (** [pd.to_datetime] on one string under [errors='coerce']: the timestamp,
      or nothing when the string is not a date. *)
  parse_datetime : string -> option Z;
  (** [pd.to_datetime] on one number. *)
  epoch_datetime : Q -> option Z;
  (** [Series.min()] and [Series.max()]; they can raise on an object column
      whose values do not compare. *)
  series_min : Series -> result cell;
  series_max : Series -> result cell;
  (** The CSV reader's type inference for one column of raw fields, and its
      conversion of one field to a cell of the inferred type. *)
  infer_dtype : list string -> dtype;
  parse_field : dtype -> string -> cell;
  (** The files that can be opened, by path. *)
  open_file : string -> option file
}.

Section WithEnv.

Context {env : Env}.

(** ** Loader *)

Definition frame_of_csv (header : list string) (records : list (list string))
  : DataFrame :=
  let width := List.length header in
  let dts := map (fun j => infer_dtype (map (fun r => nth j r EmptyString) records))
                 (seq 0 width) in
  mkDataFrame
    (combine header dts)
    (map (fun ir =>
            (fst ir,
             map (fun j => parse_field (nth j dts Object)
                                       (nth j (snd ir) EmptyString))
                 (seq 0 width)))
         (combine (seq 0 (List.length records)) records)).

(** [pd.read_csv(file_path, nrows=nrows)] *)
Definition read_csv (file_path : string) (nrows : option Z)
  : result DataFrame :=
  match open_file file_path with
  | None => Raise FileNotFoundError
  | Some f =>
      match nrows with
      | Some n =>
          if (n <? 0)%Z then Raise ValueError
          else match f with
               | Csv header records =>
                   Ok (frame_of_csv header (firstn (Z.to_nat n) records))
               | Garbage => Raise ParserError
               end
      | None =>
          match f with
          | Csv header records => Ok (frame_of_csv header records)
          | Garbage => Raise ParserError
          end
      end
  end.

(** Python truthiness of [sample_size]: [None] and [0] are false. *)
Definition truthy (sample_size : option Z) : bool :=
  match sample_size with
  | None => false
  | Some n => negb (n =? 0)%Z
  end.

Definition load_data (file_path : string) (sample_size : option Z)
  : result DataFrame :=
  if truthy sample_size then
    df <- read_csv file_path sample_size ;;
    Ok df
  else
    df <- read_csv file_path None ;;
    Ok df.

(** ** Dates *)

(** [pd.to_datetime(..., errors='coerce')] on one cell: what is not a date
    becomes the missing marker. *)
Definition to_datetime_cell (c : cell) : cell :=
  match c with
  | NA => NA
  | Time t => Time t
  | Str s => match parse_datetime s with Some t => Time t | None => NA end
  | Num q => match epoch_datetime q with Some t => Time t | None => NA end
  | Day d => Time (d * 86400000000000)%Z
  end.

Definition to_datetime (cs : list cell) : list cell := map to_datetime_cell cs.

(** ** Column statistics *)

(** The numbers of a column, nulls skipped. *)
Fixpoint numbers (cs : list cell) : list Q :=
  match cs with
  | [] => []
  | Num q :: t => q :: numbers t
  | _ :: t => numbers t
  end.

(** [Series.median()]: nothing (NaN) for a column without numbers. *)
Definition median (cs : list cell) : option Q :=
  let s := np_sort (numbers cs) in
  let n := List.length s in
  if Nat.eqb n 0 then None
  else if Nat.even n then
    Some ((nth (n / 2 - 1) s 0 + nth (n / 2) s 0) / 2)
  else Some (nth (n / 2) s 0).

(** [Series.quantile(q)] with the default linear interpolation. *)
Definition quantile (cs : list cell) (q : Q) : option Q :=
  let s := np_sort (numbers cs) in
  let n := List.length s in
  if Nat.eqb n 0 then None
  else
    let pos := q * Qnat (n - 1) in
    let lo := Z.to_nat (Qfloor pos) in
    let frac := pos - Qnat lo in
    let a := nth lo s 0 in
    let b := nth (Nat.min (lo + 1) (n - 1)) s 0 in
    Some (a + (b - a) * frac).

(** [series.fillna(value)] *)
Definition fillna (value : cell) (cs : list cell) : list cell :=
  map (fun c => if isnull c then value else c) cs.

(** ** Cleaner *)

(** [dtype in ['int64', 'float64']] *)
Definition is_int64_or_float64 (dt : dtype) : bool :=
  match dt with Int64 | Float64 => true | _ => false end.

(** One iteration of the fill loop, for the column named [col].  The in-place
    [fillna] on [df_clean[col]] is taken to update the frame, as it does in
    pandas without copy-on-write; filling a column that is not an object
    column with a string makes it an object column. *)
Definition fill_column (col : string) (df : DataFrame) : DataFrame :=
  match col_index col (columns df) with
  | None => df
  | Some j =>
      let cs := col_values j df in
      if Nat.ltb 0 (null_count cs) then
        if is_int64_or_float64 (dtype_at j df) then
          match median cs with
          | Some m => setitem df col (dtype_at j df) (fillna (Num m) cs)
          | None => df (* the median is NaN: filling with it changes nothing *)
          end
        else setitem df col Object (fillna (Str "Unknown") cs)
      else df
  end.

(** Step 1, "Handle dates". *)
Definition handle_dates (handle_missing : string) (fix_dates : bool)
  (df_clean : DataFrame) : DataFrame :=
  match col_index "date" (columns df_clean) with
  | Some j =>
      if fix_dates then
        let df_clean := setitem df_clean "date" Datetime64
                                (to_datetime (col_values j df_clean)) in
        let invalid_dates := null_count (col_values j df_clean) in
        if Nat.ltb 0 invalid_dates then
          if String.eqb handle_missing "drop" then dropna_subset j df_clean
          else df_clean
        else df_clean
      else df_clean
  | None => df_clean
  end.

(** Step 2, "Handle missing values". *)
Definition handle_missing_values (handle_missing : string)
  (df_clean : DataFrame) : DataFrame :=
  if negb (String.eqb handle_missing "report") then
    if String.eqb handle_missing "drop" then dropna df_clean
    else if String.eqb handle_missing "fill" then
      fold_left (fun df col => fill_column col df) (column_names df_clean)
                df_clean
    else df_clean
  else df_clean.

(** Step 3, "Remove duplicates". *)
Definition remove_duplicate_rows (remove_duplicates : bool)
  (df_clean : DataFrame) : DataFrame :=
  if remove_duplicates then drop_duplicates df_clean else df_clean.

(** [clean_data] works on a copy of its argument, so it is a function of it. *)
Definition clean_data (df : DataFrame) (remove_duplicates : bool)
  (handle_missing : string) (fix_dates : bool) : DataFrame :=
  let df_clean := df in
  let df_clean := handle_dates handle_missing fix_dates df_clean in
  let df_clean := handle_missing_values handle_missing df_clean in
  let df_clean := remove_duplicate_rows remove_duplicates df_clean in
  df_clean.

(** ** Feature builder *)

(** Calendar fields of a timestamp (proleptic Gregorian calendar). *)
Definition ns_per_day : Z := 86400000000000.

Definition days_of (ns : Z) : Z := (ns / ns_per_day)%Z.

Definition civil_of_days (days : Z) : Z * Z * Z :=
  let z := (days + 719468)%Z in
  let era := (z / 146097)%Z in
  let doe := (z - era * 146097)%Z in
  let yoe := ((doe - doe / 1460 + doe / 36524 - doe / 146096) / 365)%Z in
  let doy := (doe - (365 * yoe + yoe / 4 - yoe / 100))%Z in
  let mp := ((5 * doy + 2) / 153)%Z in
  let d := (doy - (153 * mp + 2) / 5 + 1)%Z in
  let m := (if mp <? 10 then mp + 3 else mp - 9)%Z in
  let y := (yoe + era * 400 + (if m <=? 2 then 1 else 0))%Z in
  (y, m, d).

Definition year_of (ns : Z) : Z := fst (fst (civil_of_days (days_of ns))).
Definition month_of (ns : Z) : Z := snd (fst (civil_of_days (days_of ns))).
Definition day_of (ns : Z) : Z := snd (civil_of_days (days_of ns)).
Definition hour_of (ns : Z) : Z := ((ns mod ns_per_day) / 3600000000000)%Z.

Definition day_name_of (ns : Z) : string :=
  match ((days_of ns + 3) mod 7)%Z with
  | 0%Z => "Monday"
  | 1%Z => "Tuesday"
  | 2%Z => "Wednesday"
  | 3%Z => "Thursday"
  | 4%Z => "Friday"
  | 5%Z => "Saturday"
  | _ => "Sunday"
  end.

(** A [.dt] accessor applied to one cell; NaT gives a null. *)
Definition dt_int (f : Z -> Z) (c : cell) : cell :=
  match c with Time t => Num (inject_Z (f t)) | _ => NA end.

Definition dt_day_name (c : cell) : cell :=
  match c with Time t => Str (day_name_of t) | _ => NA end.

Definition dt_date (c : cell) : cell :=
  match c with Time t => Day (days_of t) | _ => NA end.

Definition is_space (c : ascii) : bool :=
  let n := nat_of_ascii c in
  (Nat.leb 9 n && Nat.leb n 13) || (Nat.leb 28 n && Nat.leb n 32).

(** Number of whitespace-delimited tokens, as [len(s.split())]. *)
Fixpoint word_count (in_word : bool) (s : string) : nat :=
  match s with
  | EmptyString => 0
  | String c t =>
      if is_space c then word_count false t
      else (if in_word then 0 else 1) + word_count true t
  end.

(** [.str.len()] and [.str.split().str.len()] on one cell of an object
    column; a cell that is not a string gives a null. *)
Definition str_len (c : cell) : cell :=
  match c with Str s => Num (Qnat (String.length s)) | _ => NA end.

Definition str_split_len (c : cell) : cell :=
  match c with Str s => Num (Qnat (word_count false s)) | _ => NA end.

(** An integer result column is a float column as soon as it holds a null. *)
Definition int_dtype (dt : dtype) (vs : list cell) : dtype :=
  if existsb isnull vs then Float64 else dt.

(** [df[target] = f(df[source])], the source column being at position [j]. *)
Definition derive (df : DataFrame) (target : string) (j : nat)
  (dt : list cell -> dtype) (f : cell -> cell) : DataFrame :=
  let vs := map f (col_values j df) in
  setitem df target (dt vs) vs.

Definition extract_temporal_features (df : DataFrame) : DataFrame :=
  match col_index "date" (columns df) with
  | Some j =>
      if dtype_eqb (dtype_at j df) Datetime64 then
        let df := derive df "year" j (int_dtype Int32) (dt_int year_of) in
        let df := derive df "month" j (int_dtype Int32) (dt_int month_of) in
        let df := derive df "day" j (int_dtype Int32) (dt_int day_of) in
        let df := derive df "day_of_week" j (fun _ => Object) dt_day_name in
        let df := derive df "hour" j (int_dtype Int32) (dt_int hour_of) in
        let df := derive df "date_only" j (fun _ => Object) dt_date in
        df
      else df
  | None => df
  end.

(** The [.str] accessor exists on object columns only. *)
Definition calculate_headline_metrics (df : DataFrame)
  : DataFrame * result unit :=
  match col_index "headline" (columns df) with
  | Some j =>
      if dtype_eqb (dtype_at j df) Object then
        let df := derive df "headline_length" j (int_dtype Int64) str_len in
        let df := derive df "headline_word_count" j (int_dtype Int64)
                         str_split_len in
        (df, Ok tt)
      else (df, Raise AttributeError)
  | None => (df, Ok tt)
  end.

(** The arguments of the closing [print]: [df['date'].min()] and
    [df['date'].max()]. *)
Definition date_range (df : DataFrame) : result (cell * cell) :=
  d <- getitem df "date" ;;
  lo <- series_min d ;;
  d' <- getitem df "date" ;;
  hi <- series_max d' ;;
  Ok (lo, hi).

(** [preprocess_data] updates its argument in place.  The first component is
    the caller's frame when the call ends, the second one tells whether the
    call returned (it then returns that same frame) or raised. *)
Definition preprocess_data (df : DataFrame) : DataFrame * result unit :=
  let df := extract_temporal_features df in
  let (df, r) := calculate_headline_metrics df in
  match r with
  | Raise e => (df, Raise e)
  | Ok _ => (df, _ <- date_range df ;; Ok tt)
  end.

(** ** Quality checker *)

Record outlier_info : Type := mkOutlier {
  count : nat;
  percentage : Q;
  lower_bound : option Q;
  upper_bound : option Q
}.

Record quality_report : Type := mkReport {
  missing_values : option (list (string * (nat * Q)));
  duplicates : nat * nat * nat;
  dtypes : list (string * dtype);
  date_quality : option (option (nat * nat));
  outliers : option (list (string * outlier_info))
}.

Definition Qlt_bool (x y : Q) : bool := negb (Qle_bool y x).

Definition opt2 (f : Q -> Q -> Q) (a b : option Q) : option Q :=
  match a, b with
  | Some x, Some y => Some (f x y)
  | _, _ => None
  end.

(** [cell < bound] and [cell > bound]; a comparison with NaN is false. *)
Definition cell_lt (c : cell) (bound : option Q) : bool :=
  match c, bound with
  | Num x, Some b => Qlt_bool x b
  | _, _ => false
  end.

Definition cell_gt (c : cell) (bound : option Q) : bool :=
  match c, bound with
  | Num x, Some b => Qlt_bool b x
  | _, _ => false
  end.

(** [np.number] dtypes, as selected by [select_dtypes]. *)
Definition is_numeric (dt : dtype) : bool :=
  match dt with
  | Int64 | Int32 | Float64 | Float32 => true
  | _ => false
  end.

(** [d[key] = v] on a dictionary kept in insertion order. *)
Fixpoint dict_set {V : Type} (key : string) (v : V) (d : list (string * V))
  : list (string * V) :=
  match d with
  | [] => [(key, v)]
  | (k, w) :: t =>
      if String.eqb key k then (k, v) :: t else (k, w) :: dict_set key v t
  end.


Definition lower_of (Q1 Q3 : option Q) : option Q :=
  let IQR := opt2 Qminus Q3 Q1 in
  opt2 Qminus Q1 (option_map (Qmult 1.5) IQR).

Definition upper_of (Q1 Q3 : option Q) : option Q :=
  let IQR := opt2 Qminus Q3 Q1 in
  opt2 Qplus Q3 (option_map (Qmult 1.5) IQR).

(** The number of values strictly outside the bounds. *)
Definition outlier_count (cs : list cell) (lower upper : option Q) : nat :=
  List.length (filter (fun c => cell_lt c lower || cell_gt c upper) cs).

(** The body of the loop over the numeric columns. *)
Definition outlier_step (df : DataFrame)
  (outlier_summary : list (string * outlier_info)) (col : string)
  : list (string * outlier_info) :=
  match col_index col (columns df) with
  | None => outlier_summary
  | Some j =>
      let cs := col_values j df in
      let Q1 := quantile cs 0.25 in
      let Q3 := quantile cs 0.75 in
      let lower_bound := lower_of Q1 Q3 in
      let upper_bound := upper_of Q1 Q3 in
      let outliers := outlier_count cs lower_bound upper_bound in
      if Nat.ltb 0 outliers then
        dict_set col
          (mkOutlier outliers (Qnat outliers / Qnat (len df) * 100)
                     lower_bound upper_bound)
          outlier_summary
      else outlier_summary
  end.

(** Section 5 of the checker, "OUTLIER DETECTION (IQR Method)". *)
Definition outlier_detection (df : DataFrame)
  : option (list (string * outlier_info)) :=
  let numeric_cols :=
    map fst (filter (fun c => is_numeric (snd c)) (columns df)) in
  if Nat.ltb 0 (List.length numeric_cols) then
    Some (fold_left (outlier_step df) numeric_cols [])
  else None.

(** Descending insertion by missing count. *)
Fixpoint insert_desc (x : string * (nat * Q)) (l : list (string * (nat * Q)))
  : list (string * (nat * Q)) :=
  match l with
  | [] => [x]
  | y :: t =>
      if Nat.leb (fst (snd y)) (fst (snd x)) then x :: y :: t
      else y :: insert_desc x t
  end.

Definition missing_report (df : DataFrame)
  : option (list (string * (nat * Q))) :=
  let per_column :=
    map (fun jc =>
           let missing := null_count (col_values (fst jc) df) in
           (snd jc, (missing, Qnat missing / Qnat (len df) * 100)))
        (combine (seq 0 (List.length (columns df))) (column_names df)) in
  let missing_df :=
    fold_right insert_desc []
               (filter (fun e => Nat.ltb 0 (fst (snd e))) per_column) in
  if Nat.ltb 0 (List.length missing_df) then Some missing_df else None.

Definition date_report (df : DataFrame) : option (option (nat * nat)) :=
  match col_index "date" (columns df) with
  | Some j =>
      let dates := to_datetime (col_values j df) in
      Some (Some (List.length (filter notna dates), null_count dates))
  | None => None
  end.

Definition check_data_quality (df : DataFrame) : result quality_report :=
  let missing := missing_report df in
  let duplicate_rows := count_true (duplicated df) in
  headline <- getitem df "headline" ;;
  let duplicate_headlines :=
    count_true (duplicated_from cell_eqb [] (values headline)) in
  url <- getitem df "url" ;;
  let duplicate_urls :=
    count_true (duplicated_from cell_eqb [] (values url)) in
  Ok (mkReport missing
               (duplicate_rows, duplicate_headlines, duplicate_urls)
               (columns df)
               (date_report df)
               (outlier_detection df)).

End WithEnv.

(** A small environment for the worked examples: one string that parses as a
    date, a reader that infers object columns, and one file. *)
Definition sample_env : Env := {|
  parse_datetime := fun s =>
    if String.eqb s "2020-02-29" then Some 1582934400000000000%Z else None;
  epoch_datetime := fun q => Some (Qfloor q);
  series_min := fun s => Ok (hd NA (values s));
  series_max := fun s => Ok (hd NA (values s));
  infer_dtype := fun _ => Object;
  parse_field := fun _ s => if String.eqb s EmptyString then NA else Str s;
  open_file := fun path =>
    if String.eqb path "ratings.csv" then
      Some (Csv ["headline"; "url"]%string
                [["h1"; "u1"]; ["h2"; "u2"]; ["h3"; EmptyString]]%string)
    else None
|}.

(** ** Spike detection *)

Definition present (vs : list (option Q)) : list Q :=
  flat_map (fun v => match v with Some x => [x] | None => [] end) vs.

(** [Series.mean()], nulls skipped; NaN for an empty series. *)
Definition series_mean (vs : list (option Q)) : option Q :=
  let xs := present vs in
  if Nat.eqb (List.length xs) 0 then None
  else Some (np_sum xs / Qnat (List.length xs)).

(** The square of [Series.std()] (sample standard deviation, one degree of
    freedom removed); NaN for fewer than two values. *)
Definition series_var (vs : list (option Q)) : option Q :=
  let xs := present vs in
  match series_mean vs with
  | None => None
  | Some m =>
      if Nat.leb (List.length xs) 1 then None
      else Some (np_sum (map (fun x => (x - m) * (x - m)) xs)
                 / Qnat (List.length xs - 1))
  end.

(** [x > mean + k * std], decided on the variance: the standard deviation is
    its square root, which is not rational in general. *)
Definition above_threshold (mean k var x : Q) : bool :=
  let a := x - mean in
  if Qle_bool 0 k then Qlt_bool 0 a && Qlt_bool (k * k * var) (a * a)
  else Qlt_bool 0 a || Qlt_bool (a * a) (k * k * var).

(** A series is a list of (index label, value) pairs; [None] is NaN.  A NaN
    mean or deviation gives a NaN threshold, above which nothing is. *)
Definition identify_spikes {L : Type} (series : list (L * option Q))
  (threshold_std : Q) : list (L * option Q) :=
  match series_mean (map snd series), series_var (map snd series) with
  | Some mean, Some var =>
      filter (fun p => match snd p with
                       | Some x => above_threshold mean threshold_std var x
                       | None => false
                       end) series
  | _, _ => []
  end.

(** ** Notions used to state the properties *)

Local Open Scope string_scope.

(** Two arrays equal value by value. *)
Definition pointwise_eq : list Q -> list Q -> Prop := Forall2 Qeq.




(** Every row has one cell per column. *)
Definition well_formed (df : DataFrame) : Prop :=
  Forall (fun r : row => List.length (snd r) = List.length (columns df)) (rows df).

(** The dtype and the values of the column at position [j]. *)
Definition col_state (j : nat) (df : DataFrame) : dtype * list cell :=
  (dtype_at j df, col_values j df).

(** The column at position [j] gets dtype [dt] and has [h] applied to each of
    its cells. *)
Definition update_col (j : nat) (dt : dtype) (h : cell -> cell)
  (df : DataFrame) : DataFrame :=
  mkDataFrame
    (replace_nth j (fst (nth j (columns df) (EmptyString, Object)), dt)
                 (columns df))
    (map (fun r : row => (fst r, replace_nth j (h (cell_at j r)) (snd r)))
         (rows df)).

(** What one iteration of the fill loop does to the column it visits. *)
Definition fill_state (st : dtype * list cell) : dtype * list cell :=
  let (dt, cs) := st in
  if Nat.ltb 0 (null_count cs) then
    if is_int64_or_float64 dt then
      match median cs with
      | Some m => (dt, fillna (Num m) cs)
      | None => (dt, cs)
      end
    else (Object, fillna (Str "Unknown") cs)
  else (dt, cs).

(** The fill loop of the cleaner over a list of column names. *)
Definition fill_loop {env : Env} (names : list string) (df : DataFrame) : DataFrame :=
  fold_left (fun d col => fill_column col d) names df.

(** The worked example of the cleaner: a date that does not parse, a text
    null, a float64 column with a median and one without any number. *)
Definition cleaning_example : DataFrame :=
  mkDataFrame
    [("headline", Object); ("date", Object); ("score", Float64);
     ("rating", Float64)]
    [(0%nat, [Str "a"; Str "2020-02-29"; NA; Num 1]);
     (1%nat, [Str "a"; Str "bad"; NA; NA]);
     (2%nat, [NA; Str "bad"; NA; Num 3]);
     (3%nat, [Str "a"; Str "bad"; NA; NA])].


(** Same columns, and rows among those of the other frame. *)
Definition sub_frame (df' df : DataFrame) : Prop :=
  columns df' = columns df /\ forall r, In r (rows df') -> In r (rows df).

(** The rows that [drop_duplicates] keeps, given the keys seen so far. *)
Definition dedup_from (seen : list (list cell)) (rs : list row) : list row :=
  drop_flagged rs (duplicated_from cells_eqb seen (map snd rs)).

(** Shapes of the cells of a date column. *)
Definition is_time (c : cell) : Prop :=
  match c with Time _ => True | _ => False end.

Definition time_or_na (c : cell) : Prop :=
  match c with Time _ | NA => True | _ => False end.

Definition time_or_unknown (c : cell) : Prop :=
  match c with Time _ => True | Str s => s = "Unknown" | _ => False end.

(** A column as the fill loop leaves it. *)
Definition filled_col (j : nat) (df : DataFrame) : Prop :=
  null_count (col_values j df) = 0%nat \/
  (is_int64_or_float64 (dtype_at j df) = true /\ numbers (col_values j df) = []).

(** ** Pipeline *)

(** [load_and_preprocess_data]: load, check, clean when asked to (always with
    [fix_dates=True]), build the features; the report is the one of the frame
    as loaded. *)
Definition load_and_preprocess_data {env : Env} (file_path : string)
  (sample_size : option Z) (clean remove_duplicates : bool)
  (handle_missing : string) : result (DataFrame * quality_report) :=
  df <- load_data file_path sample_size ;;
  quality_report <- check_data_quality df ;;
  let df := if clean then clean_data df remove_duplicates handle_missing true
            else df in
  let (df, outcome) := preprocess_data df in
  _ <- outcome ;;
  Ok (df, quality_report).

(** An environment whose file has the four columns of the ratings data. *)
Definition pipeline_env : Env := {|
  parse_datetime := fun s =>
    if String.eqb s "2020-02-29" then Some 1582934400000000000%Z else None;
  epoch_datetime := fun q => Some (Qfloor q);
  series_min := fun s => Ok (hd NA (values s));
  series_max := fun s => Ok (hd NA (values s));
  infer_dtype := fun _ => Object;
  parse_field := fun _ s => if String.eqb s EmptyString then NA else Str s;
  open_file := fun path =>
    if String.eqb path "data/raw.csv" then
      Some (Csv ["headline"; "url"; "publisher"; "date"]%string
                [["Stocks up"; "u1"; "a@b.com"; "2020-02-29"];
                 ["Stocks up"; "u1"; "a@b.com"; "2020-02-29"];
                 ["Bonds down"; "u2"; EmptyString; "soon"]]%string)
    else None
|}.

(** ** Persistence *)

(** [p[:p.rfind(sep) + 1]]: the text up to the last separator, included. *)
Fixpoint up_to_last (sep : ascii) (s : list ascii) : list ascii :=
  match s with
  | [] => []
  | c :: t =>
      match up_to_last sep t with
      | [] => if Ascii.eqb c sep then [c] else []
      | h => c :: h
      end
  end.

(** [s.rstrip(sep)] for a one-character separator. *)
Fixpoint rstrip (sep : ascii) (s : list ascii) : list ascii :=
  match s with
  | [] => []
  | c :: t =>
      match rstrip sep t with
      | [] => if Ascii.eqb c sep then [] else [c]
      | r => c :: r
      end
  end.

(** [os.path.dirname] (POSIX): the head is kept as it is when it is empty or
    made of separators only, and loses its trailing separators otherwise. *)
Definition dirname (p : string) : string :=
  let head := up_to_last "/" (list_ascii_of_string p) in
  if forallb (Ascii.eqb "/") head then string_of_list_ascii head
  else string_of_list_ascii (rstrip "/" head).

(** What the persistence helpers ask of the operating system and of pandas,
    over a store of directories and files: [os.makedirs(name, exist_ok=...)],
    [DataFrame.to_pickle(path)] and [pd.read_pickle(path)]. *)
Class Storage : Type := {
  store : Type;
  os_makedirs : string -> bool -> store -> store * result unit;
  to_pickle : DataFrame -> string -> store -> store * result unit;
  read_pickle : string -> store -> result DataFrame
}.

Definition save_processed_data {fs : Storage} (df : DataFrame)
  (file_path : string) (st : store) : store * result unit :=
  let (st, made) := os_makedirs (dirname file_path) true st in
  match made with
  | Ok _ => to_pickle df file_path st
  | Raise e => (st, Raise e)
  end.

Definition load_processed_data {fs : Storage} (file_path : string)
  (st : store) : result DataFrame :=
  df <- read_pickle file_path st ;;
  Ok df.

(** A store for the worked examples: the directories made so far and the
    pickled frames by path; the directory of the empty name cannot be made. *)
Definition sample_storage : Storage := {|
  store := list string * list (string * DataFrame);
  os_makedirs := fun name _ st =>
    if String.eqb name EmptyString then (st, Raise FileNotFoundError)
    else ((name :: fst st, snd st), Ok tt);
  to_pickle := fun df path st => ((fst st, (path, df) :: snd st), Ok tt);
  read_pickle := fun path st =>
    match find (fun e => String.eqb (fst e) path) (snd st) with
    | Some e => Ok (snd e)
    | None => Raise FileNotFoundError
    end
|}.

(** ** Email domain extraction

    Characters are bytes; a character outside ASCII is in none of the
    classes of the pattern. *)

(** The regular expressions that [extract_email_domain] needs: a sequence of
    literal characters and of greedy repetitions [cls{min,}] of a character
    class. *)
Inductive regex_item : Type :=
| Lit (c : ascii)
| Rep (cls : ascii -> bool) (min : nat).

(** Length of the match of [items] at the start of [s], if any, with the
    priorities of a backtracking matcher: a repetition takes as many
    characters as it can and gives them back one by one while the rest of the
    pattern fails. *)
Fixpoint match_here (items : list regex_item) (s : list ascii) {struct items}
  : option nat :=
  match items with
  | [] => Some 0%nat
  | Lit c :: rest =>
      match s with
      | c' :: t =>
          if Ascii.eqb c c' then option_map S (match_here rest t) else None
      | [] => None
      end
  | Rep cls min :: rest =>
      (fix rep (s : list ascii) (min : nat) {struct s} : option nat :=
         let stop := match min with
                     | O => match_here rest s
                     | S _ => None
                     end in
         match s with
         | c :: t =>
             if cls c then
               match rep t (pred min) with
               | Some n => Some (S n)
               | None => stop
               end
             else stop
         | [] => stop
         end) s min
  end.

(** [re.search]: the match at the leftmost position that has one. *)
Fixpoint re_search (items : list regex_item) (s : list ascii)
  : option (list ascii) :=
  match match_here items s with
  | Some n => Some (firstn n s)
  | None =>
      match s with
      | [] => None
      | _ :: t => re_search items t
      end
  end.

Definition in_range (lo hi c : ascii) : bool :=
  (Nat.leb (nat_of_ascii lo) (nat_of_ascii c)
   && Nat.leb (nat_of_ascii c) (nat_of_ascii hi))%bool.

(** [[a-zA-Z]] *)
Definition is_letter (c : ascii) : bool :=
  (in_range "a" "z" c || in_range "A" "Z" c)%bool.

(** [[a-zA-Z0-9._%+-]] *)
Definition is_local (c : ascii) : bool :=
  (is_letter c || in_range "0" "9" c
   || existsb (Ascii.eqb c) ["."; "_"; "%"; "+"; "-"]%char)%bool.

(** [[a-zA-Z0-9.-]] *)
Definition is_domain (c : ascii) : bool :=
  (is_letter c || in_range "0" "9" c
   || existsb (Ascii.eqb c) ["."; "-"]%char)%bool.

(** [[a-zA-Z0-9._%+-]+@[a-zA-Z0-9.-]+\.[a-zA-Z]{2,}] *)
Definition email_pattern : list regex_item :=
  [Rep is_local 1; Lit "@"; Rep is_domain 1; Lit "."; Rep is_letter 2].

(** [s.split(sep)] for a one-character separator. *)
Fixpoint split_on (sep : ascii) (s : list ascii) : list (list ascii) :=
  match s with
  | [] => [[]]
  | c :: t =>
      if Ascii.eqb c sep then [] :: split_on sep t
      else match split_on sep t with
           | h :: r => (c :: h) :: r
           | [] => [[c]]
           end
  end.

(** What a call of [extract_email_domain] does: it returns a domain, returns
    [None], or raises [IndexError] (indexing the pieces of the split). *)
Inductive domain_outcome : Type :=
| ReturnsDomain (domain : string)
| ReturnsNone
| RaisesIndexError.

Definition extract_email_domain (publisher : string) : domain_outcome :=
  match re_search email_pattern (list_ascii_of_string publisher) with
  | Some group1 =>
      match nth_error (split_on "@" group1) 1 with
      | Some piece => ReturnsDomain (string_of_list_ascii piece)
      | None => RaisesIndexError
      end
  | None => ReturnsNone
  end.

(** ** Further notions used to state the properties *)

(** The entry of the missing-value table for the column at position [j]. *)
Definition missing_entry (df : DataFrame) (j : nat) : string * (nat * Q) :=
  let missing := null_count (col_values j df) in
  (nth j (column_names df) EmptyString,
   (missing, Qnat missing / Qnat (len df) * 100)).


(** [l'] is [l] with some entries left out, the others in their order. *)
Inductive subseq {A : Type} : list A -> list A -> Prop :=
| subseq_nil : subseq [] []
| subseq_keep (x : A) (l' l : list A) : subseq l' l -> subseq (x :: l') (x :: l)
| subseq_drop (x : A) (l' l : list A) : subseq l' l -> subseq l' (x :: l).

(** The dtype and the values of the column called [c], if there is one. *)
Definition named_state (c : string) (df : DataFrame)
  : option (dtype * list cell) :=
  match col_index c (columns df) with
  | Some k => Some (col_state k df)
  | None => None
  end.

(** Where [df[target] = ...] stores its column: at the position of the column
    of that name, or after the last column. *)
Definition target_index (target : string) (df : DataFrame) : nat :=
  match col_index target (columns df) with
  | Some k => k
  | None => List.length (columns df)
  end.

(** One derived column: its name, its dtype given its values, and what is
    computed from each cell of the source column. *)
Record feature : Type := mkFeature {
  feature_name : string;
  feature_dtype : list cell -> dtype;
  feature_cell : cell -> cell
}.

(** The assignments of the temporal block and of the headline block, in the
    order of the source. *)
Definition temporal_features : list feature :=
  [mkFeature "year" (int_dtype Int32) (dt_int year_of);
   mkFeature "month" (int_dtype Int32) (dt_int month_of);
   mkFeature "day" (int_dtype Int32) (dt_int day_of);
   mkFeature "day_of_week" (fun _ => Object) dt_day_name;
   mkFeature "hour" (int_dtype Int32) (dt_int hour_of);
   mkFeature "date_only" (fun _ => Object) dt_date].

Definition headline_features : list feature :=
  [mkFeature "headline_length" (int_dtype Int64) str_len;
   mkFeature "headline_word_count" (int_dtype Int64) str_split_len].

(** The value that a feature gets from the source column [cs]. *)
Definition feature_state (s : feature) (cs : list cell) : dtype * list cell :=
  (feature_dtype s (map (feature_cell s) cs), map (feature_cell s) cs).

(** A run of assignments from the column at position [j]. *)
Definition derive_all (j : nat) (fs : list feature) (df : DataFrame)
  : DataFrame :=
  fold_left (fun d s => derive d (feature_name s) j (feature_dtype s)
                               (feature_cell s)) fs df.

(** A frame with a datetime column that holds a NaT. *)
Definition feature_example : DataFrame :=
  mkDataFrame
    [("headline", Object); ("date", Datetime64); ("year", Object)]
    [(0%nat, [Str "Stocks rally on earnings"; Time 1582934400000000000; Str "old"]);
     (1%nat, [NA; NA; Str "old"])].

(** One block of the feature builder: when the frame has the column [src]
    with a dtype that [cond] accepts, the features are assigned from it. *)
Definition stage (src : string) (cond : dtype -> bool) (fs : list feature)
  (df : DataFrame) : DataFrame :=
  match col_index src (columns df) with
  | Some j => if cond (dtype_at j df) then derive_all j fs df else df
  | None => df
  end.

(** The features hold what the block computes from the column [src] of this
    very frame. *)
Definition settled (src : string) (cond : dtype -> bool) (fs : list feature)
  (df : DataFrame) : Prop :=
  forall j, col_index src (columns df) = Some j ->
            cond (dtype_at j df) = true ->
            forall s, In s fs ->
                      named_state (feature_name s) df
                      = Some (feature_state s (col_values j df)).

(** The words that a pattern matches. *)
Fixpoint matches (items : list regex_item) (w : list ascii) : Prop :=
  match items with
  | [] => w = []
  | Lit c :: rest => exists w', w = c :: w' /\ matches rest w'
  | Rep cls min :: rest =>
      exists a b, w = (a ++ b)%list /\ Forall (fun c => cls c = true) a /\
                  (min <= List.length a)%nat /\ matches rest b
  end.

(** The next character, if any, is outside the class. *)
Definition stops_class (cls : ascii -> bool) (r : list ascii) : Prop :=
  match r with
  | [] => True
  | c :: _ => cls c = false
  end.

(** * Properties

    ** Arithmetic helpers *)


Lemma Qnat_nonneg (n : nat) : 0 <= Qnat n.
Proof.
  unfold Qnat. change 0 with (inject_Z 0). rewrite <- Zle_Qle. lia.
Qed.

Lemma Qnat_pos (n : nat) : (0 < n)%nat -> 0 < Qnat n.
Proof.
  intros H. unfold Qnat. change 0 with (inject_Z 0). rewrite <- Zlt_Qlt. lia.
Qed.

Lemma Qle_bool_false (x y : Q) : Qle_bool x y = false -> y < x.
Proof.
  intros H. apply Qnot_le_lt. intros Hle.
  apply Qle_bool_iff in Hle. congruence.
Qed.

Lemma insert_perm (x : Q) (l : list Q) : Permutation (insert x l) (x :: l).
Proof.
  induction l as [|y t IH]; simpl; [reflexivity|].
  destruct (Qle_bool x y); [reflexivity|].
  rewrite IH. apply perm_swap.
Qed.

Lemma np_sort_perm (l : list Q) : Permutation (np_sort l) l.
Proof.
  induction l as [|x t IH]; simpl; [constructor|].
  rewrite insert_perm. now constructor.
Qed.










Lemma np_sort_length (l : list Q) : List.length (np_sort l) = List.length l.
Proof. apply Permutation_length, np_sort_perm. Qed.



Lemma pointwise_eq_refl (l : list Q) : pointwise_eq l l.
Proof. induction l; constructor; [reflexivity | assumption]. Qed.

Lemma pointwise_eq_trans (a b c : list Q) :
  pointwise_eq a b -> pointwise_eq b c -> pointwise_eq a c.
Proof.
  intros H. revert c. induction H as [|x y a b Hxy Hab IH]; intros c Hc; inversion Hc; subst.
  - constructor.
  - constructor; [now rewrite Hxy | now apply IH].
Qed.

Lemma insert_pointwise (x : Q) (s s' : list Q) :
  pointwise_eq s s' -> pointwise_eq (insert x s) (insert x s').
Proof.
  induction 1 as [|y y' t t' Hy Ht IH]; simpl.
  - apply pointwise_eq_refl.
  - rewrite <- Hy. destruct (Qle_bool x y).
    + constructor; [reflexivity|]. constructor; assumption.
    + constructor; assumption.
Qed.

Lemma insert_insert (x y : Q) (s : list Q) :
  pointwise_eq (insert x (insert y s)) (insert y (insert x s)).
Proof.
  induction s as [|h t IH]; simpl.
  - destruct (Qle_bool x y) eqn:Exy, (Qle_bool y x) eqn:Eyx; simpl;
      try apply pointwise_eq_refl.
    + apply Qle_bool_iff in Exy, Eyx.
      assert (x == y) by (apply Qle_antisym; assumption).
      repeat constructor; [assumption | now symmetry].
    + apply Qle_bool_false in Exy, Eyx. exfalso.
      apply (Qlt_irrefl x). now apply Qlt_trans with y.
  - destruct (Qle_bool y h) eqn:Eyh, (Qle_bool x h) eqn:Exh; simpl;
      rewrite ?Eyh, ?Exh.
    + destruct (Qle_bool x y) eqn:Exy, (Qle_bool y x) eqn:Eyx; simpl;
        rewrite ?Eyh, ?Exh; try apply pointwise_eq_refl.
      * apply Qle_bool_iff in Exy, Eyx.
        assert (x == y) by (apply Qle_antisym; assumption).
        constructor; [assumption|]. constructor; [now symmetry|].
        apply pointwise_eq_refl.
      * apply Qle_bool_false in Exy, Eyx. exfalso.
        apply (Qlt_irrefl x). now apply Qlt_trans with y.
    + assert (Exy : Qle_bool x y = false).
      { destruct (Qle_bool x y) eqn:E; [|reflexivity].
        apply Qle_bool_iff in E, Eyh. apply Qle_bool_false in Exh.
        exfalso. apply (Qlt_irrefl x).
        apply Qle_lt_trans with h; [now apply Qle_trans with y | assumption]. }
      rewrite Exy. apply pointwise_eq_refl.
    + assert (Eyx : Qle_bool y x = false).
      { destruct (Qle_bool y x) eqn:E; [|reflexivity].
        apply Qle_bool_iff in E, Exh. apply Qle_bool_false in Eyh.
        exfalso. apply (Qlt_irrefl y).
        apply Qle_lt_trans with h; [now apply Qle_trans with x | assumption]. }
      rewrite Eyx. apply pointwise_eq_refl.
    + constructor; [reflexivity | exact IH].
Qed.

Lemma np_sort_pointwise (l l' : list Q) :
  Permutation l l' -> pointwise_eq (np_sort l) (np_sort l').
Proof.
  induction 1 as [|x l l' Hp IH|x y l|l l' l'' H1 IH1 H2 IH2]; simpl.
  - constructor.
  - now apply insert_pointwise.
  - apply insert_insert.
  - eapply pointwise_eq_trans; eassumption.
Qed.

Lemma np_sum_pointwise (a b : list Q) : pointwise_eq a b -> np_sum a == np_sum b.
Proof.
  induction 1 as [|x y a b Hxy Hab IH]; simpl; [reflexivity|]. now rewrite Hxy, IH.
Qed.

Lemma np_mul_pointwise (idx a b : list Q) :
  pointwise_eq a b -> pointwise_eq (np_mul idx a) (np_mul idx b).
Proof.
  intros H. revert idx. induction H as [|x y a b Hxy Hab IH]; intros [|i idx]; simpl;
    try constructor.
  - simpl. now rewrite Hxy.
  - apply IH.
Qed.

Lemma true_divide_eq (a a' b b' : Q) :
  a == a' -> b == b' -> npfloat_eq (true_divide a b) (true_divide a' b').
Proof.
  intros Ha Hb. unfold true_divide.
  assert (E1 : Qeq_bool b 0 = Qeq_bool b' 0) by now rewrite Hb.
  assert (E2 : Qeq_bool a 0 = Qeq_bool a' 0) by now rewrite Ha.
  assert (E3 : Qle_bool 0 a = Qle_bool 0 a') by now rewrite Ha.
  rewrite <- E1, <- E2, <- E3.
  destruct (Qeq_bool b 0).
  - destruct (Qeq_bool a 0); [exact I|]. destruct (Qle_bool 0 a); exact I.
  - simpl. now rewrite Ha, Hb.
Qed.

(** C10.  [gini_coefficient] gives the same result on two sequences that are
    reorderings of each other (on every input: a value, NaN, an infinity or
    the [ZeroDivisionError] of the empty sequence). *)
Theorem gini_coefficient_permutation (l l' : list Q) :
  Permutation l l' -> result_eq (gini_coefficient l) (gini_coefficient l').
Proof.
  intros Hp. unfold gini_coefficient.
  rewrite <- (Permutation_length Hp).
  destruct (Nat.eqb (List.length l) 0); [reflexivity|].
  pose proof (np_sort_pointwise Hp) as Hs.
  assert (H : npfloat_eq
    (true_divide (2 * np_sum (np_mul (np_arange 1 (List.length l + 1)) (np_sort l)))
                 (Qnat (List.length l) * np_sum (np_sort l)))
    (true_divide (2 * np_sum (np_mul (np_arange 1 (List.length l + 1)) (np_sort l')))
                 (Qnat (List.length l) * np_sum (np_sort l')))).
  { apply true_divide_eq.
    - now rewrite (np_sum_pointwise (np_mul_pointwise _ Hs)).
    - now rewrite (np_sum_pointwise Hs). }
  simpl. destruct (true_divide _ _), (true_divide _ _); simpl in *; try tauto.
  now rewrite H.
Qed.

Lemma gini_coefficient_permutation_witness :
  Permutation [3; 1; 2] [1; 2; 3] /\
  result_eq (gini_coefficient [3; 1; 2]) (gini_coefficient [1; 2; 3]).
Proof.
  assert (H : Permutation [3; 1; 2] [1; 2; 3]).
  { apply perm_trans with [1; 3; 2]; [apply perm_swap | apply perm_skip, perm_swap]. }
  split; [exact H | exact (gini_coefficient_permutation H)].
Defined.

(** ** Spike detection *)


Lemma Qlt_bool_iff (x y : Q) : Qlt_bool x y = true <-> x < y.
Proof.
  unfold Qlt_bool. rewrite negb_true_iff. split.
  - apply Qle_bool_false.
  - intros H. destruct (Qle_bool y x) eqn:E; [|reflexivity].
    apply Qle_bool_iff in E. exfalso. apply (Qlt_irrefl x).
    now apply Qlt_le_trans with y.
Qed.

Lemma Qlt_bool_R (x y : Q) : Qlt_bool x y = true <-> (Q2R x < Q2R y)%R.
Proof.
  rewrite Qlt_bool_iff. split; [apply Qlt_Rlt | apply Rlt_Qlt].
Qed.

Lemma Qle_bool_R (x y : Q) : Qle_bool x y = true <-> (Q2R x <= Q2R y)%R.
Proof.
  rewrite Qle_bool_iff. split; [apply Qle_Rle | apply Rle_Qle].
Qed.

Lemma Qsquare_nonneg (a : Q) : 0 <= a * a.
Proof.
  destruct (Qlt_le_dec a 0) as [H|H].
  - setoid_replace (a * a) with ((- a) * (- a)) by ring.
    apply Qmult_le_0_compat; lra.
  - now apply Qmult_le_0_compat.
Qed.

Lemma sum_squares_nonneg (m : Q) (xs : list Q) :
  0 <= np_sum (map (fun x => (x - m) * (x - m)) xs).
Proof.
  induction xs as [|x t IH]; [simpl; lra|].
  change (0 <= (x - m) * (x - m) + np_sum (map (fun x => (x - m) * (x - m)) t)).
  pose proof (Qsquare_nonneg (x - m)) as Hsq. lra.
Qed.

Lemma series_var_nonneg (vs : list (option Q)) (v : Q) :
  series_var vs = Some v -> 0 <= v.
Proof.
  unfold series_var. destruct (series_mean vs) as [m|]; [|discriminate].
  destruct (Nat.leb (List.length (present vs)) 1) eqn:E; [discriminate|].
  intros H. injection H as <-.
  apply Nat.leb_gt in E.
  apply Qle_shift_div_l.
  - apply Qnat_pos. lia.
  - rewrite Qmult_0_l. apply sum_squares_nonneg.
Qed.

Lemma above_threshold_real (mean k var x : Q) :
  0 <= var ->
  above_threshold mean k var x = true <->
  (Q2R x > Q2R mean + Q2R k * sqrt (Q2R var))%R.
Proof.
  intros Hv. apply Qle_Rle in Hv. rewrite RMicromega.Q2R_0 in Hv.
  pose proof (sqrt_pos (Q2R var)) as Hs.
  pose proof (sqrt_sqrt (Q2R var) Hv) as Hss.
  unfold above_threshold.
  destruct (Qle_bool 0 k) eqn:Ek.
  - apply Qle_bool_R in Ek. rewrite RMicromega.Q2R_0 in Ek.
    rewrite andb_true_iff, !Qlt_bool_R.
    rewrite RMicromega.Q2R_0, !Q2R_mult, !Q2R_minus.
    set (s := sqrt (Q2R var)) in *. rewrite <- Hss.
    set (a := Q2R x) in *. set (m := Q2R mean) in *. set (b := Q2R k) in *.
    clearbody a m b s.
    assert (Hc : (0 <= b * s)%R) by Lra.nra.
    split.
    + intros [Ha Hsq]. Lra.nra.
    + intros H. split; Lra.nra.
  - assert (Ek' : (Q2R k < 0)%R).
    { apply Qle_bool_false in Ek. apply Qlt_Rlt in Ek.
      now rewrite RMicromega.Q2R_0 in Ek. }
    rewrite orb_true_iff, !Qlt_bool_R.
    rewrite RMicromega.Q2R_0, !Q2R_mult, !Q2R_minus.
    set (s := sqrt (Q2R var)) in *. rewrite <- Hss.
    set (a := Q2R x) in *. set (m := Q2R mean) in *. set (b := Q2R k) in *.
    clearbody a m b s.
    assert (Hc : (b * s <= 0)%R) by Lra.nra.
    split.
    + intros [Ha | Hsq]; [Lra.lra|].
      destruct (Rlt_le_dec 0 (a - m)) as [Hpos|Hneg]; [Lra.lra|]. Lra.nra.
    + intros H. destruct (Rlt_le_dec 0 (a - m)) as [Hpos|Hneg]; [now left|right].
      Lra.nra.
Qed.


(** ** Loader, feature builder and row counts *)

Section LoaderProperties.

Context {env : Env}.

Lemma frame_of_csv_len (header : list string) (records : list (list string)) :
  len (frame_of_csv header records) = List.length records.
Proof.
  unfold len, frame_of_csv. simpl.
  rewrite length_map, length_combine, length_seq. apply Nat.min_id.
Qed.

Lemma frame_of_csv_labels (header : list string) (records : list (list string)) :
  map fst (rows (frame_of_csv header records)) = seq 0 (List.length records).
Proof.
  unfold frame_of_csv. simpl. rewrite map_map. simpl.
  generalize 0%nat. induction records as [|r t IH]; intros k; simpl; [reflexivity|].
  now rewrite IH.
Qed.

(** C8.  For a readable CSV file, [load_data] with a positive cap [N] returns
    the frame built from the first [N] records of the file, in file order and
    labelled 0, 1, ...; without a cap it returns the frame built from all
    records. *)
Theorem load_data_first_rows (file_path : string) (header : list string)
  (records : list (list string)) :
  open_file file_path = Some (Csv header records) ->
  (forall N : Z, (0 < N)%Z ->
     exists df,
       load_data file_path (Some N) = Ok df /\
       df = frame_of_csv header (firstn (Z.to_nat N) records) /\
       len df = Nat.min (Z.to_nat N) (List.length records) /\
       map fst (rows df) = seq 0 (len df)) /\
  (exists df,
     load_data file_path None = Ok df /\
     df = frame_of_csv header records /\
     len df = List.length records /\
     map fst (rows df) = seq 0 (len df)).
Proof.
  intros Hfile. split.
  - intros N HN. eexists. split; [|split; [reflexivity|]].
    + unfold load_data, truthy, read_csv. rewrite Hfile.
      destruct (Z.eqb_spec N 0) as [->|_]; [lia|]. simpl.
      destruct (Z.ltb_spec N 0); [lia|]. reflexivity.
    + rewrite frame_of_csv_labels, frame_of_csv_len, length_firstn. auto.
  - eexists. split; [|split; [reflexivity|]].
    + unfold load_data, truthy, read_csv. rewrite Hfile. reflexivity.
    + rewrite frame_of_csv_labels, frame_of_csv_len. auto.
Qed.

(** C9.  With [sample_size = 0] the cap is ignored: [load_data] does what it
    does without a cap and loads the whole file, whereas the reader called
    with [nrows = 0] would give an empty frame. *)
Theorem load_data_zero_cap (file_path : string) (header : list string)
  (records : list (list string)) :
  open_file file_path = Some (Csv header records) ->
  load_data file_path (Some 0%Z) = load_data file_path None /\
  load_data file_path (Some 0%Z) = Ok (frame_of_csv header records) /\
  read_csv file_path (Some 0%Z) = Ok (frame_of_csv header []).
Proof.
  intros Hfile. unfold load_data, read_csv. simpl. rewrite Hfile. auto.
Qed.

End LoaderProperties.

Lemma load_data_first_rows_witness :
  @open_file sample_env "ratings.csv"
  = Some (Csv ["headline"; "url"] [["h1"; "u1"]; ["h2"; "u2"]; ["h3"; EmptyString]]) /\
  @load_data sample_env "ratings.csv" (Some 2%Z)
  = Ok (mkDataFrame [("headline", Object); ("url", Object)]
                    [(0%nat, [Str "h1"; Str "u1"]); (1%nat, [Str "h2"; Str "u2"])]).
Proof.
  split; [reflexivity|].
  destruct (@load_data_first_rows sample_env "ratings.csv" _ _ eq_refl) as [H _].
  destruct (H 2%Z eq_refl) as [df [Hload [Hdf _]]].
  rewrite Hload, Hdf. reflexivity.
Defined.

Lemma load_data_zero_cap_witness :
  @load_data sample_env "ratings.csv" (Some 0%Z)
  = Ok (mkDataFrame [("headline", Object); ("url", Object)]
                    [(0%nat, [Str "h1"; Str "u1"]); (1%nat, [Str "h2"; Str "u2"]);
                     (2%nat, [Str "h3"; NA])]).
Proof.
  destruct (@load_data_zero_cap sample_env "ratings.csv" _ _ eq_refl) as [_ [H _]].
  rewrite H. reflexivity.
Defined.

(** ** Frames: basic facts *)

Lemma set_cells_length (pos : option nat) (rs : list row) (vs : list cell) :
  List.length (set_cells pos rs vs) = List.length rs.
Proof.
  revert vs. induction rs as [|r t IH]; intros [|v vs]; simpl; auto.
Qed.

Lemma setitem_len (df : DataFrame) (name : string) (dt : dtype) (vs : list cell) :
  len (setitem df name dt vs) = len df.
Proof.
  unfold setitem, len. destruct (col_index name (columns df)); simpl;
    apply set_cells_length.
Qed.

Lemma col_index_Some (name : string) (cols : list (string * dtype)) (j : nat) :
  col_index name cols = Some j ->
  (j < List.length cols)%nat /\ fst (nth j cols (EmptyString, Object)) = name.
Proof.
  revert j. induction cols as [|[c dt] t IH]; intros j; simpl; [discriminate|].
  destruct (String.eqb_spec name c) as [->|Hne].
  - intros [= <-]. split; [lia | reflexivity].
  - destruct (col_index name t) as [k|]; [|discriminate].
    intros [= <-]. destruct (IH k eq_refl). split; [lia | assumption].
Qed.

Lemma col_index_names (name : string) (cols cols' : list (string * dtype)) :
  map fst cols = map fst cols' -> col_index name cols = col_index name cols'.
Proof.
  revert cols'. induction cols as [|[c dt] t IH]; intros [|[c' dt'] t']; simpl;
    try discriminate; [reflexivity|].
  intros [= -> Ht]. now rewrite (IH t' Ht).
Qed.

Lemma replace_nth_names (name : string) (dt : dtype)
  (cols : list (string * dtype)) (j : nat) :
  col_index name cols = Some j ->
  map fst (replace_nth j (name, dt) cols) = map fst cols.
Proof.
  revert j. induction cols as [|[c d] t IH]; intros j; simpl; [reflexivity|].
  destruct (String.eqb_spec name c) as [->|Hne].
  - intros [= <-]. reflexivity.
  - destruct (col_index name t) as [k|]; [|discriminate].
    intros [= <-]. simpl. now rewrite (IH k eq_refl).
Qed.

Lemma setitem_names (df : DataFrame) (name : string) (dt : dtype)
  (vs : list cell) (c : string) :
  In c (column_names df) -> In c (column_names (setitem df name dt vs)).
Proof.
  unfold setitem, column_names.
  destruct (col_index name (columns df)) as [j|] eqn:E; simpl.
  - now rewrite (@replace_nth_names name dt _ _ E).
  - rewrite map_app, in_app_iff. now left.
Qed.

Lemma col_index_app_other (c name : string) (dt : dtype)
  (cols : list (string * dtype)) :
  c <> name -> col_index c (cols ++ [(name, dt)])%list = col_index c cols.
Proof.
  intros Hne. induction cols as [|[c' d] t IH]; simpl.
  - destruct (String.eqb_spec c name); [contradiction | reflexivity].
  - now rewrite IH.
Qed.

Lemma setitem_col_index_other (df : DataFrame) (name : string) (dt : dtype)
  (vs : list cell) (c : string) :
  c <> name ->
  col_index c (columns (setitem df name dt vs)) = col_index c (columns df).
Proof.
  intros Hne. unfold setitem.
  destruct (col_index name (columns df)) as [j|] eqn:E; simpl.
  - apply col_index_names. now apply replace_nth_names.
  - now apply col_index_app_other.
Qed.

Lemma derive_len (df : DataFrame) (target : string) (j : nat)
  (dt : list cell -> dtype) (f : cell -> cell) :
  len (derive df target j dt f) = len df.
Proof. apply setitem_len. Qed.

Lemma derive_names (df : DataFrame) (target : string) (j : nat)
  (dt : list cell -> dtype) (f : cell -> cell) (c : string) :
  In c (column_names df) -> In c (column_names (derive df target j dt f)).
Proof. apply setitem_names. Qed.

Lemma filter_length_le {A : Type} (f : A -> bool) (l : list A) :
  (List.length (filter f l) <= List.length l)%nat.
Proof.
  induction l as [|x t IH]; simpl; [lia|]. destruct (f x); simpl; lia.
Qed.

Lemma drop_flagged_length_le {A : Type} (l : list A) (flags : list bool) :
  (List.length (drop_flagged l flags) <= List.length l)%nat.
Proof.
  revert flags. induction l as [|x t IH]; intros [|b f]; simpl; try lia.
  destruct b; simpl; specialize (IH f); lia.
Qed.

Section FrameProperties.

Context {env : Env}.

Lemma fill_column_len (col : string) (df : DataFrame) :
  len (fill_column col df) = len df.
Proof.
  unfold fill_column. destruct (col_index col (columns df)); [|reflexivity].
  destruct (Nat.ltb 0 _); [|reflexivity].
  destruct (is_int64_or_float64 _).
  - destruct (median _); [apply setitem_len | reflexivity].
  - apply setitem_len.
Qed.

Lemma fill_loop_len (names : list string) (df : DataFrame) :
  len (fold_left (fun d col => fill_column col d) names df) = len df.
Proof.
  revert df. induction names as [|c t IH]; intros df; simpl; [reflexivity|].
  now rewrite IH, fill_column_len.
Qed.

Lemma handle_dates_len (hm : string) (fd : bool) (df : DataFrame) :
  (len (handle_dates hm fd df) <= len df)%nat.
Proof.
  unfold handle_dates. destruct (col_index "date" (columns df)); [|lia].
  destruct fd; [|lia].
  destruct (Nat.ltb 0 _); [|rewrite setitem_len; lia].
  destruct (String.eqb hm "drop"); [|rewrite setitem_len; lia].
  unfold dropna_subset, len at 1. simpl.
  etransitivity; [apply filter_length_le|].
  fold (len (setitem df "date" Datetime64 (to_datetime (col_values n df)))).
  rewrite setitem_len. lia.
Qed.

Lemma handle_missing_values_len (hm : string) (df : DataFrame) :
  (len (handle_missing_values hm df) <= len df)%nat.
Proof.
  unfold handle_missing_values.
  destruct (negb (String.eqb hm "report")); [|lia].
  destruct (String.eqb hm "drop").
  - unfold dropna, len. simpl. apply filter_length_le.
  - destruct (String.eqb hm "fill"); [|lia]. rewrite fill_loop_len. lia.
Qed.

Lemma remove_duplicate_rows_len (rd : bool) (df : DataFrame) :
  (len (remove_duplicate_rows rd df) <= len df)%nat.
Proof.
  destruct rd; simpl; [|lia]. unfold drop_duplicates, len. simpl.
  apply drop_flagged_length_le.
Qed.

Lemma extract_temporal_features_len (df : DataFrame) :
  len (extract_temporal_features df) = len df.
Proof.
  unfold extract_temporal_features.
  destruct (col_index "date" (columns df)); [|reflexivity].
  destruct (dtype_eqb _ _); [|reflexivity].
  now rewrite !derive_len.
Qed.

Lemma extract_temporal_features_names (df : DataFrame) (c : string) :
  In c (column_names df) -> In c (column_names (extract_temporal_features df)).
Proof.
  intros H. unfold extract_temporal_features.
  destruct (col_index "date" (columns df)); [|assumption].
  destruct (dtype_eqb _ _); [|assumption].
  now repeat apply derive_names.
Qed.

Lemma calculate_headline_metrics_len (df : DataFrame) :
  len (fst (calculate_headline_metrics df)) = len df.
Proof.
  unfold calculate_headline_metrics.
  destruct (col_index "headline" (columns df)); [|reflexivity].
  destruct (dtype_eqb _ _); [|reflexivity].
  simpl. now rewrite !derive_len.
Qed.

Lemma calculate_headline_metrics_names (df : DataFrame) (c : string) :
  In c (column_names df) ->
  In c (column_names (fst (calculate_headline_metrics df))).
Proof.
  intros H. unfold calculate_headline_metrics.
  destruct (col_index "headline" (columns df)); [|assumption].
  destruct (dtype_eqb _ _); [|assumption].
  simpl. now repeat apply derive_names.
Qed.

Lemma preprocess_data_frame (df : DataFrame) :
  fst (preprocess_data df)
  = fst (calculate_headline_metrics (extract_temporal_features df)).
Proof.
  unfold preprocess_data.
  destruct (calculate_headline_metrics _) as [d [u|e]]; reflexivity.
Qed.

(** C5.  Whatever the policy, [clean_data] returns at most as many rows as it
    was given.  [preprocess_data] leaves the number of rows of the frame
    unchanged and keeps every column name the frame had. *)
Theorem row_count_monotone :
  (forall (df : DataFrame) (remove_duplicates : bool) (handle_missing : string)
          (fix_dates : bool),
     (len (clean_data df remove_duplicates handle_missing fix_dates) <= len df)%nat) /\
  (forall df : DataFrame,
     len (fst (preprocess_data df)) = len df /\
     forall c : string,
       In c (column_names df) -> In c (column_names (fst (preprocess_data df)))).
Proof.
  split.
  - intros df rd hm fd. unfold clean_data.
    etransitivity; [apply remove_duplicate_rows_len|].
    etransitivity; [apply handle_missing_values_len|].
    apply handle_dates_len.
  - intros df. rewrite preprocess_data_frame. split.
    + now rewrite calculate_headline_metrics_len, extract_temporal_features_len.
    + intros c H.
      now apply calculate_headline_metrics_names, extract_temporal_features_names.
Qed.

(** C1 (the code departs from the claim).  On a frame without a [date]
    column the feature builder never returns: once the headline metrics are
    in place, the closing [print] evaluates [df['date']] and raises
    [KeyError]; when the headline column is not an object column the [.str]
    accessor has raised [AttributeError] before that. *)
Theorem preprocess_data_without_date_raises (df : DataFrame) :
  has_column "date" df = false ->
  (snd (calculate_headline_metrics df) = Ok tt /\
   snd (preprocess_data df) = Raise (KeyError "date")) \/
  (snd (calculate_headline_metrics df) = Raise AttributeError /\
   snd (preprocess_data df) = Raise AttributeError).
Proof.
  unfold has_column. intros Hno.
  assert (Et : extract_temporal_features df = df).
  { unfold extract_temporal_features.
    destruct (col_index "date" (columns df)); [discriminate | reflexivity]. }
  unfold preprocess_data. rewrite Et.
  destruct (calculate_headline_metrics df) as [d [u|e]] eqn:Eh.
  - left. destruct u. split; [reflexivity|]. simpl.
    assert (Hd : col_index "date" (columns d) = None).
    { unfold calculate_headline_metrics in Eh.
      destruct (col_index "headline" (columns df)) as [j|] eqn:Ej.
      - destruct (dtype_eqb _ _); [|discriminate].
        injection Eh as <-. unfold derive.
        rewrite !setitem_col_index_other by discriminate.
        destruct (col_index "date" (columns df)); [discriminate | reflexivity].
      - injection Eh as <-. destruct (col_index "date" (columns df)); [discriminate | reflexivity]. }
    unfold date_range, getitem. rewrite Hd. reflexivity.
  - right. unfold calculate_headline_metrics in Eh.
    destruct (col_index "headline" (columns df)); [|discriminate].
    destruct (dtype_eqb _ _); [discriminate|].
    injection Eh as _ <-. split; reflexivity.
Qed.

End FrameProperties.

Lemma preprocess_data_without_date_raises_witness :
  (has_column "date"
     (mkDataFrame [("headline", Object)] [(0%nat, [Str "hello big world"])])
   = false) /\
  (@preprocess_data sample_env
     (mkDataFrame [("headline", Object)] [(0%nat, [Str "hello big world"])])
   = (mkDataFrame
        [("headline", Object); ("headline_length", Int64);
         ("headline_word_count", Int64)]
        [(0%nat, [Str "hello big world"; Num (Qnat 15); Num (Qnat 3)])],
      Raise (KeyError "date"))) /\
  (snd (@preprocess_data sample_env
          (mkDataFrame [("headline", Object)]
                       [(0%nat, [Str "hello big world"])]))
   = Raise (KeyError "date")).
Proof.
  split; [reflexivity|]. split; [reflexivity|].
  destruct (@preprocess_data_without_date_raises sample_env
              (mkDataFrame [("headline", Object)]
                           [(0%nat, [Str "hello big world"])]) eq_refl)
    as [[_ H]|[H _]]; [exact H | discriminate H].
Defined.

(** ** Quality checker *)







Section CheckerProperties.

Context {env : Env}.

Lemma quantile_interpolates (cs : list cell) (q : Q) :
  0 <= q -> numbers cs <> [] ->
  let s := np_sort (numbers cs) in
  let n := List.length s in
  exists (lo : nat) (frac v : Q),
    quantile cs q = Some v /\
    q * Qnat (n - 1) == Qnat lo + frac /\ 0 <= frac < 1 /\
    v == nth lo s 0 + (nth (Nat.min (lo + 1) (n - 1)) s 0 - nth lo s 0) * frac.
Proof.
  intros Hq Hne s n. unfold quantile. fold s. fold n.
  assert (Hn : Nat.eqb n 0 = false).
  { apply Nat.eqb_neq. unfold n, s. rewrite np_sort_length.
    destruct (numbers cs); [congruence | simpl; lia]. }
  rewrite Hn.
  set (pos := q * Qnat (n - 1)).
  assert (Hpos : 0 <= pos).
  { unfold pos. apply Qmult_le_0_compat; [assumption | apply Qnat_nonneg]. }
  assert (Hfl : (0 <= Qfloor pos)%Z).
  { change 0%Z with (Qfloor 0). now apply Qfloor_resp_le. }
  assert (Hlo : Qnat (Z.to_nat (Qfloor pos)) == inject_Z (Qfloor pos)).
  { unfold Qnat. now rewrite Z2Nat.id. }
  exists (Z.to_nat (Qfloor pos)), (pos - Qnat (Z.to_nat (Qfloor pos))). eexists.
  split; [reflexivity|]. split; [ring|]. split; [|reflexivity].
  rewrite Hlo. pose proof (Qfloor_le pos). pose proof (Qlt_floor pos) as Hlt.
  rewrite inject_Z_plus in Hlt. change (inject_Z 1) with 1 in Hlt.
  split; lra.
Qed.


End CheckerProperties.

(** ** Cleaner *)

(** ** Columns of a well-formed frame *)

Lemma replace_nth_length {A : Type} (j : nat) (v : A) (l : list A) :
  List.length (replace_nth j v l) = List.length l.
Proof.
  revert j. induction l as [|x t IH]; intros [|j]; simpl; auto.
Qed.

Lemma nth_replace_nth_same {A : Type} (j : nat) (v d : A) (l : list A) :
  (j < List.length l)%nat -> nth j (replace_nth j v l) d = v.
Proof.
  revert j. induction l as [|x t IH]; intros [|j]; simpl; try lia; auto.
  intros H. apply IH. lia.
Qed.

Lemma nth_replace_nth_other {A : Type} (j k : nat) (v d : A) (l : list A) :
  j <> k -> nth k (replace_nth j v l) d = nth k l d.
Proof.
  revert j k. induction l as [|x t IH]; intros [|j] [|k]; simpl; try congruence; auto.
Qed.

Lemma replace_nth_self {A : Type} (j : nat) (d : A) (l : list A) :
  replace_nth j (nth j l d) l = l.
Proof.
  revert j. induction l as [|x t IH]; intros [|j]; simpl; auto.
  now rewrite IH.
Qed.

Lemma replace_nth_twice {A : Type} (j : nat) (v w : A) (l : list A) :
  replace_nth j w (replace_nth j v l) = replace_nth j w l.
Proof.
  revert j. induction l as [|x t IH]; intros [|j]; simpl; auto.
  now rewrite IH.
Qed.

Lemma set_cells_map (j : nat) (h : row -> cell) (rs : list row) :
  set_cells (Some j) rs (map h rs)
  = map (fun r : row => (fst r, replace_nth j (h r) (snd r))) rs.
Proof.
  induction rs as [|r t IH]; simpl; [reflexivity|]. now rewrite IH.
Qed.

Lemma setitem_update (df : DataFrame) (name : string) (dt : dtype)
  (h : cell -> cell) (j : nat) :
  col_index name (columns df) = Some j ->
  setitem df name dt (map h (col_values j df)) = update_col j dt h df.
Proof.
  intros Hj. unfold setitem, update_col, col_values. rewrite Hj.
  destruct (col_index_Some _ _ Hj) as [_ Hname]. rewrite Hname.
  rewrite map_map. now rewrite (set_cells_map j (fun r => h (cell_at j r))).
Qed.

Lemma update_col_names (j : nat) (dt : dtype) (h : cell -> cell) (df : DataFrame) :
  column_names (update_col j dt h df) = column_names df.
Proof.
  unfold column_names, update_col. simpl.
  generalize (columns df). intros cols. revert j.
  induction cols as [|[c d] t IH]; intros [|j]; simpl; auto.
  now rewrite IH.
Qed.

Lemma update_col_wf (j : nat) (dt : dtype) (h : cell -> cell) (df : DataFrame) :
  well_formed df -> well_formed (update_col j dt h df).
Proof.
  unfold well_formed, update_col. simpl. intros H.
  rewrite Forall_map. eapply Forall_impl; [|exact H].
  intros r Hr. simpl. now rewrite !replace_nth_length.
Qed.

Lemma update_col_values_same (j : nat) (dt : dtype) (h : cell -> cell)
  (df : DataFrame) :
  well_formed df -> (j < List.length (columns df))%nat ->
  col_values j (update_col j dt h df) = map h (col_values j df).
Proof.
  unfold well_formed, col_values, update_col. simpl. intros H Hj.
  rewrite !map_map. apply map_ext_in. intros r Hr.
  rewrite Forall_forall in H. specialize (H r Hr).
  unfold cell_at at 1. simpl. apply nth_replace_nth_same. lia.
Qed.

Lemma update_col_values_other (j k : nat) (dt : dtype) (h : cell -> cell)
  (df : DataFrame) :
  j <> k -> col_values k (update_col j dt h df) = col_values k df.
Proof.
  intros Hne. unfold col_values, update_col. simpl.
  rewrite map_map. apply map_ext. intros r.
  unfold cell_at. simpl. now apply nth_replace_nth_other.
Qed.

Lemma update_col_dtype_same (j : nat) (dt : dtype) (h : cell -> cell)
  (df : DataFrame) :
  (j < List.length (columns df))%nat -> dtype_at j (update_col j dt h df) = dt.
Proof.
  intros Hj. unfold dtype_at, update_col. simpl.
  now rewrite nth_replace_nth_same.
Qed.

Lemma update_col_dtype_other (j k : nat) (dt : dtype) (h : cell -> cell)
  (df : DataFrame) :
  j <> k -> dtype_at k (update_col j dt h df) = dtype_at k df.
Proof.
  intros Hne. unfold dtype_at, update_col. simpl.
  now rewrite nth_replace_nth_other.
Qed.

Lemma update_col_state_other (j k : nat) (dt : dtype) (h : cell -> cell)
  (df : DataFrame) :
  j <> k -> col_state k (update_col j dt h df) = col_state k df.
Proof.
  intros Hne. unfold col_state.
  now rewrite update_col_dtype_other, update_col_values_other.
Qed.

(** Updating a column with its own dtype and a function that fixes its cells
    changes nothing. *)
Lemma update_col_fixed (j : nat) (dt : dtype) (h : cell -> cell) (df : DataFrame) :
  (j < List.length (columns df))%nat ->
  dtype_at j df = dt ->
  Forall (fun c => h c = c) (col_values j df) ->
  update_col j dt h df = df.
Proof.
  intros Hj Hdt Hfix. destruct df as [cols rs]. unfold update_col. simpl in *.
  f_equal.
  - unfold dtype_at in Hdt. simpl in Hdt. rewrite <- Hdt.
    rewrite <- surjective_pairing. apply replace_nth_self.
  - unfold col_values in Hfix. simpl in Hfix. rewrite Forall_map in Hfix.
    rewrite <- (map_id rs) at 2. apply map_ext_in. intros r Hr.
    rewrite Forall_forall in Hfix. rewrite (Hfix r Hr).
    unfold cell_at. rewrite replace_nth_self. now destruct r.
Qed.

Lemma update_col_twice (j : nat) (dt dt' : dtype) (h h' : cell -> cell)
  (df : DataFrame) :
  well_formed df -> (j < List.length (columns df))%nat ->
  update_col j dt' h' (update_col j dt h df)
  = update_col j dt' (fun c => h' (h c)) df.
Proof.
  intros Hwf Hj. unfold update_col. simpl. f_equal.
  - rewrite nth_replace_nth_same by assumption. simpl.
    apply replace_nth_twice.
  - rewrite map_map. apply map_ext_in. intros r Hr. simpl.
    unfold well_formed in Hwf. rewrite Forall_forall in Hwf.
    specialize (Hwf r Hr).
    unfold cell_at at 1. simpl. rewrite nth_replace_nth_same by lia.
    now rewrite replace_nth_twice.
Qed.

(** ** The fill loop, column by column *)

Lemma null_count_fillna (v : cell) (cs : list cell) :
  isnull v = false -> null_count (fillna v cs) = 0%nat.
Proof.
  intros Hv. unfold null_count, fillna.
  induction cs as [|c t IH]; simpl; [reflexivity|].
  destruct (isnull c) eqn:E; simpl; rewrite ?Hv, ?E; exact IH.
Qed.

Lemma fillna_no_nulls (v : cell) (cs : list cell) :
  null_count cs = 0%nat -> fillna v cs = cs.
Proof.
  unfold null_count, fillna. induction cs as [|c t IH]; simpl; [reflexivity|].
  destruct (isnull c); simpl; [discriminate|]. intros H. now rewrite IH.
Qed.

Lemma median_None (cs : list cell) : median cs = None <-> numbers cs = [].
Proof.
  unfold median. cbv zeta. rewrite np_sort_length.
  destruct (numbers cs) as [|q t].
  - simpl. tauto.
  - change (Nat.eqb (List.length (q :: t)) 0) with false. cbv iota.
    split; [|discriminate].
    destruct (Nat.even (List.length (q :: t))); discriminate.
Qed.

Lemma numbers_fillna_NA_free (v : cell) (cs : list cell) :
  numbers cs = [] -> (forall q, v <> Num q) -> numbers (fillna v cs) = [].
Proof.
  intros H Hv. unfold fillna. induction cs as [|c t IH]; simpl; [reflexivity|].
  destruct c; simpl in *; try discriminate; auto.
  destruct v; simpl; auto. now destruct (Hv q).
Qed.

(** After its iteration a column has no null, unless it is an int64 or
    float64 column without any number. *)
Lemma fill_state_result (st : dtype * list cell) :
  null_count (snd (fill_state st)) = 0%nat \/
  (is_int64_or_float64 (fst (fill_state st)) = true /\
   numbers (snd (fill_state st)) = [] /\ fill_state st = st).
Proof.
  destruct st as [dt cs]. unfold fill_state.
  destruct (Nat.ltb 0 (null_count cs)) eqn:En.
  - destruct (is_int64_or_float64 dt) eqn:E64.
    + destruct (median cs) as [m|] eqn:Em; simpl.
      * left. now apply null_count_fillna.
      * right. split; [assumption|]. split; [now apply median_None | reflexivity].
    + left. now apply null_count_fillna.
  - left. simpl. apply Nat.ltb_ge in En. lia.
Qed.

Lemma fill_state_idempotent (st : dtype * list cell) :
  fill_state (fill_state st) = fill_state st.
Proof.
  destruct (fill_state_result st) as [H0|[_ [_ Hst]]].
  - destruct (fill_state st) as [dt cs]. simpl in *. now rewrite H0.
  - now rewrite Hst.
Qed.

Section FillLoop.

Context {env : Env}.

Lemma fill_column_update (col : string) (df : DataFrame) (j : nat) :
  col_index col (columns df) = Some j ->
  fill_column col df = df \/
  exists dt h, fill_column col df = update_col j dt h df.
Proof.
  intros Hj. unfold fill_column. rewrite Hj.
  destruct (Nat.ltb 0 _); [|now left].
  destruct (is_int64_or_float64 _).
  - destruct (median _) as [m|]; [|now left]. right.
    unfold fillna. rewrite (@setitem_update _ _ _ _ _ Hj). eauto.
  - right. unfold fillna. rewrite (@setitem_update _ _ _ _ _ Hj). eauto.
Qed.

Lemma fill_column_names (col : string) (df : DataFrame) :
  column_names (fill_column col df) = column_names df.
Proof.
  destruct (col_index col (columns df)) as [j|] eqn:Hj.
  - destruct (fill_column_update col df Hj) as [->|[dt [h ->]]];
      [reflexivity | apply update_col_names].
  - unfold fill_column. now rewrite Hj.
Qed.

Lemma fill_column_wf (col : string) (df : DataFrame) :
  well_formed df -> well_formed (fill_column col df).
Proof.
  intros Hwf. destruct (col_index col (columns df)) as [j|] eqn:Hj.
  - destruct (fill_column_update col df Hj) as [->|[dt [h ->]]];
      [assumption | now apply update_col_wf].
  - unfold fill_column. now rewrite Hj.
Qed.

Lemma fill_column_state_same (col : string) (df : DataFrame) (j : nat) :
  well_formed df -> col_index col (columns df) = Some j ->
  col_state j (fill_column col df) = fill_state (col_state j df).
Proof.
  intros Hwf Hj. destruct (col_index_Some _ _ Hj) as [Hlt _].
  unfold fill_column, fill_state, col_state. rewrite Hj.
  destruct (Nat.ltb 0 _); [|reflexivity].
  destruct (is_int64_or_float64 _).
  - destruct (median _) as [m|]; [|reflexivity].
    unfold fillna. rewrite (@setitem_update _ _ _ _ _ Hj).
    now rewrite update_col_dtype_same, update_col_values_same.
  - unfold fillna. rewrite (@setitem_update _ _ _ _ _ Hj).
    now rewrite update_col_dtype_same, update_col_values_same.
Qed.

Lemma fill_column_state_other (col : string) (df : DataFrame) (j k : nat) :
  col_index col (columns df) = Some j -> j <> k ->
  col_state k (fill_column col df) = col_state k df.
Proof.
  intros Hj Hne.
  destruct (fill_column_update col df Hj) as [->|[dt [h ->]]];
    [reflexivity | now apply update_col_state_other].
Qed.

Lemma col_index_columns (c : string) (df df' : DataFrame) :
  column_names df = column_names df' ->
  col_index c (columns df) = col_index c (columns df').
Proof. apply col_index_names. Qed.

Lemma col_index_distinct (c c' : string) (cols : list (string * dtype))
  (j j' : nat) :
  col_index c cols = Some j -> col_index c' cols = Some j' -> c <> c' -> j <> j'.
Proof.
  intros Hj Hj' Hne ->.
  destruct (col_index_Some _ _ Hj) as [_ H1].
  destruct (col_index_Some _ _ Hj') as [_ H2]. congruence.
Qed.

Lemma fill_loop_names (names : list string) (df : DataFrame) :
  column_names (fill_loop names df) = column_names df.
Proof.
  revert df. induction names as [|c t IH]; intros df; simpl; [reflexivity|].
  unfold fill_loop in *. simpl. now rewrite IH, fill_column_names.
Qed.

Lemma fill_loop_wf (names : list string) (df : DataFrame) :
  well_formed df -> well_formed (fill_loop names df).
Proof.
  revert df. induction names as [|c t IH]; intros df H; simpl; [assumption|].
  unfold fill_loop in *. simpl. now apply IH, fill_column_wf.
Qed.

(** The loop leaves in each column it visits the result of one iteration. *)
Lemma fill_loop_state (names : list string) (df : DataFrame) (col : string)
  (j : nat) :
  well_formed df -> col_index col (columns df) = Some j ->
  col_state j (fill_loop names df)
  = if in_dec string_dec col names then fill_state (col_state j df)
    else col_state j df.
Proof.
  revert df. induction names as [|c t IH]; intros df Hwf Hj; [reflexivity|].
  unfold fill_loop in *. simpl fold_left.
  assert (Hj' : col_index col (columns (fill_column c df)) = Some j).
  { rewrite <- Hj. apply col_index_columns, fill_column_names. }
  rewrite (IH _ (@fill_column_wf c df Hwf) Hj').
  destruct (string_dec c col) as [->|Hne].
  - rewrite (@fill_column_state_same col df j Hwf Hj).
    destruct (in_dec string_dec col (col :: t)) as [_|Hn];
      [|exfalso; apply Hn; now left].
    destruct (in_dec string_dec col t);
      [apply fill_state_idempotent | reflexivity].
  - assert (Hst : col_state j (fill_column c df) = col_state j df).
    { destruct (col_index c (columns df)) as [jc|] eqn:Ec.
      - apply (@fill_column_state_other c df jc j Ec).
        apply (@col_index_distinct c col (columns df) jc j Ec Hj Hne).
      - unfold fill_column. now rewrite Ec. }
    rewrite Hst.
    destruct (in_dec string_dec col t) as [Hi|Hn];
      destruct (in_dec string_dec col (c :: t)) as [Hi'|Hn']; try reflexivity.
    + exfalso. apply Hn'. now right.
    + exfalso. destruct Hi' as [E|E]; [now apply Hne | now apply Hn].
Qed.

End FillLoop.

(** ** Frames whose rows are taken from another frame *)

Lemma sub_frame_refl (df : DataFrame) : sub_frame df df.
Proof. split; auto. Qed.

Lemma sub_frame_trans (a b c : DataFrame) :
  sub_frame a b -> sub_frame b c -> sub_frame a c.
Proof.
  intros [Hc1 Hr1] [Hc2 Hr2]. split; [congruence | auto].
Qed.

Lemma sub_frame_wf (df' df : DataFrame) :
  sub_frame df' df -> well_formed df -> well_formed df'.
Proof.
  intros [Hc Hr] Hwf. unfold well_formed in *. rewrite Forall_forall in *.
  intros r Hin. rewrite Hc. auto.
Qed.

Lemma sub_frame_values (P : cell -> Prop) (j : nat) (df' df : DataFrame) :
  sub_frame df' df ->
  Forall P (col_values j df) -> Forall P (col_values j df').
Proof.
  intros [_ Hr]. unfold col_values. rewrite !Forall_map, !Forall_forall. auto.
Qed.

Lemma sub_frame_dtype (j : nat) (df' df : DataFrame) :
  sub_frame df' df -> dtype_at j df' = dtype_at j df.
Proof. intros [Hc _]. unfold dtype_at. now rewrite Hc. Qed.

Lemma sub_frame_col_index (c : string) (df' df : DataFrame) :
  sub_frame df' df -> col_index c (columns df') = col_index c (columns df).
Proof. intros [Hc _]. now rewrite Hc. Qed.

Lemma drop_flagged_In {A : Type} (l : list A) (flags : list bool) (x : A) :
  In x (drop_flagged l flags) -> In x l.
Proof.
  revert flags. induction l as [|y t IH]; intros [|b f]; simpl; auto.
  destruct b; simpl; intros H.
  - right. eauto.
  - destruct H; [now left | right; eauto].
Qed.

Lemma dropna_subset_sub (j : nat) (df : DataFrame) :
  sub_frame (dropna_subset j df) df.
Proof.
  split; [reflexivity|]. simpl. intros r H. now apply filter_In in H.
Qed.

Lemma dropna_sub (df : DataFrame) : sub_frame (dropna df) df.
Proof.
  split; [reflexivity|]. simpl. intros r H. now apply filter_In in H.
Qed.

Lemma drop_duplicates_sub (df : DataFrame) : sub_frame (drop_duplicates df) df.
Proof.
  split; [reflexivity|]. simpl. intros r. apply drop_flagged_In.
Qed.

Lemma null_count_zero (cs : list cell) :
  null_count cs = 0%nat <-> Forall (fun c => isnull c = false) cs.
Proof.
  unfold null_count. induction cs as [|c t IH]; simpl.
  - split; [constructor | reflexivity].
  - destruct (isnull c) eqn:E; simpl.
    + split; [discriminate|]. intros H. inversion H; congruence.
    + rewrite IH. split; [now constructor | intros H; now inversion H].
Qed.

Lemma numbers_nil (cs : list cell) :
  numbers cs = [] <-> Forall (fun c => forall q, c <> Num q) cs.
Proof.
  induction cs as [|c t IH]; simpl.
  - split; [constructor | reflexivity].
  - destruct c; try (rewrite IH; split;
                     [intros H; constructor; [discriminate | assumption]
                     | intros H; now inversion H]).
    split; [discriminate|]. intros H. inversion H as [|? ? Hq _]. now destruct (Hq q).
Qed.

(** ** Duplicates *)

Lemma dedup_from_cons (seen : list (list cell)) (r : row) (t : list row) :
  dedup_from seen (r :: t)
  = if existsb (cells_eqb (snd r)) seen then dedup_from seen t
    else r :: dedup_from (snd r :: seen) t.
Proof.
  unfold dedup_from. simpl. now destruct (existsb _ seen).
Qed.

Lemma dedup_from_idempotent (seen : list (list cell)) (rs : list row) :
  dedup_from seen (dedup_from seen rs) = dedup_from seen rs.
Proof.
  revert seen. induction rs as [|r t IH]; intros seen; [reflexivity|].
  rewrite dedup_from_cons. destruct (existsb (cells_eqb (snd r)) seen) eqn:E.
  - apply IH.
  - rewrite dedup_from_cons, E. now rewrite IH.
Qed.

Lemma drop_duplicates_idempotent (df : DataFrame) :
  drop_duplicates (drop_duplicates df) = drop_duplicates df.
Proof.
  unfold drop_duplicates, duplicated. simpl. f_equal.
  apply (dedup_from_idempotent [] (rows df)).
Qed.

Lemma cell_eqb_refl (c : cell) : cell_eqb c c = true.
Proof.
  destruct c; simpl; auto using String.eqb_refl, Z.eqb_refl.
  apply Qeq_bool_iff. reflexivity.
Qed.

Lemma cells_eqb_refl (cs : list cell) : cells_eqb cs cs = true.
Proof.
  induction cs as [|c t IH]; simpl; [reflexivity|].
  now rewrite cell_eqb_refl, IH.
Qed.

Lemma cells_eqb_nth (a b : list cell) (j : nat) :
  cells_eqb a b = true -> cell_eqb (nth j a NA) (nth j b NA) = true.
Proof.
  revert b j. induction a as [|x a IH]; intros [|y b] j; simpl; try discriminate.
  - now destruct j.
  - intros H. apply andb_true_iff in H. destruct H as [Hx Hab].
    destruct j; [assumption | now apply IH].
Qed.

(** Every row has a representative among the rows that are kept. *)
Lemma dedup_from_represents (seen : list (list cell)) (rs : list row) (r : row) :
  In r rs ->
  existsb (cells_eqb (snd r)) seen = true \/
  exists r', In r' (dedup_from seen rs) /\ cells_eqb (snd r) (snd r') = true.
Proof.
  revert seen. induction rs as [|x t IH]; intros seen Hin; [contradiction|].
  rewrite dedup_from_cons.
  destruct (existsb (cells_eqb (snd x)) seen) eqn:E.
  - destruct Hin as [->|Hin]; [now left | now apply IH].
  - destruct Hin as [->|Hin].
    + right. exists r. split; [now left | apply cells_eqb_refl].
    + destruct (IH (snd x :: seen) Hin) as [Hs|[r' [Hr' Heq]]].
      * simpl in Hs. apply orb_true_iff in Hs. destruct Hs as [Hx|Hs]; [|now left].
        right. exists x. split; [now left | assumption].
      * right. exists r'. split; [now right | assumption].
Qed.

Lemma drop_duplicates_represents (df : DataFrame) (r : row) :
  In r (rows df) ->
  exists r', In r' (rows (drop_duplicates df)) /\
             cells_eqb (snd r) (snd r') = true.
Proof.
  intros Hin.
  destruct (dedup_from_represents [] (rows df) r Hin) as [H|H];
    [discriminate | exact H].
Qed.

Section CleanerProperties.

Context {env : Env}.

Lemma to_datetime_update (df : DataFrame) (jd : nat) :
  col_index "date" (columns df) = Some jd ->
  setitem df "date" Datetime64 (to_datetime (col_values jd df))
  = update_col jd Datetime64 to_datetime_cell df.
Proof. intros Hj. unfold to_datetime. now apply setitem_update. Qed.

Lemma handle_dates_skip (hm : string) (fd : bool) (df : DataFrame) :
  fd = false \/ col_index "date" (columns df) = None ->
  handle_dates hm fd df = df.
Proof.
  unfold handle_dates. intros [-> | ->]; [|reflexivity].
  now destruct (col_index "date" (columns df)).
Qed.

Lemma handle_dates_keep (hm : string) (df : DataFrame) (jd : nat) :
  col_index "date" (columns df) = Some jd -> String.eqb hm "drop" = false ->
  handle_dates hm true df = update_col jd Datetime64 to_datetime_cell df.
Proof.
  intros Hj Hhm. unfold handle_dates. rewrite Hj, Hhm, (to_datetime_update df Hj).
  now destruct (Nat.ltb 0 _).
Qed.

Lemma handle_dates_sub (hm : string) (df : DataFrame) (jd : nat) :
  col_index "date" (columns df) = Some jd ->
  sub_frame (handle_dates hm true df)
            (update_col jd Datetime64 to_datetime_cell df).
Proof.
  intros Hj. unfold handle_dates. rewrite Hj, (to_datetime_update df Hj).
  destruct (Nat.ltb 0 _); [|apply sub_frame_refl].
  destruct (String.eqb hm "drop"); [apply dropna_subset_sub | apply sub_frame_refl].
Qed.

Lemma handle_dates_wf (hm : string) (fd : bool) (df : DataFrame) :
  well_formed df -> well_formed (handle_dates hm fd df).
Proof.
  intros Hwf. destruct fd; [|now rewrite handle_dates_skip by now left].
  destruct (col_index "date" (columns df)) as [jd|] eqn:Hj;
    [|now rewrite handle_dates_skip by now right].
  eapply sub_frame_wf; [apply (handle_dates_sub hm df Hj)|].
  now apply update_col_wf.
Qed.

Lemma handle_missing_values_fill (df : DataFrame) :
  handle_missing_values "fill" df = fill_loop (column_names df) df.
Proof. reflexivity. Qed.

Lemma col_index_In (c : string) (cols : list (string * dtype)) (j : nat) :
  col_index c cols = Some j -> In c (map fst cols).
Proof.
  revert j. induction cols as [|[c' d] t IH]; intros j; simpl; [discriminate|].
  destruct (String.eqb_spec c c') as [->|Hne]; [now left|].
  destruct (col_index c t) as [k|]; [|discriminate]. intros _. right. eauto.
Qed.

Lemma remove_duplicate_rows_sub (rd : bool) (df : DataFrame) :
  sub_frame (remove_duplicate_rows rd df) df.
Proof.
  destruct rd; [apply drop_duplicates_sub | apply sub_frame_refl].
Qed.


(** *** Frames that the cleaner leaves unchanged *)

Lemma filled_col_sub (j : nat) (df' df : DataFrame) :
  sub_frame df' df -> filled_col j df -> filled_col j df'.
Proof.
  intros Hsub [H0|[H64 Hnum]].
  - left. apply null_count_zero. apply (@sub_frame_values _ j _ _ Hsub).
    now apply null_count_zero.
  - right. rewrite (@sub_frame_dtype j _ _ Hsub). split; [assumption|].
    apply numbers_nil. apply (@sub_frame_values _ j _ _ Hsub).
    now apply numbers_nil.
Qed.

Lemma fill_column_fixed (c : string) (df : DataFrame) :
  (forall j, col_index c (columns df) = Some j -> filled_col j df) ->
  fill_column c df = df.
Proof.
  intros H. unfold fill_column.
  destruct (col_index c (columns df)) as [j|]; [|reflexivity].
  destruct (H j eq_refl) as [H0|[H64 Hnum]].
  - now rewrite H0.
  - rewrite H64. apply median_None in Hnum. rewrite Hnum.
    now destruct (Nat.ltb 0 _).
Qed.

Lemma fill_loop_fixed (names : list string) (df : DataFrame) :
  (forall c j, col_index c (columns df) = Some j -> filled_col j df) ->
  fill_loop names df = df.
Proof.
  intros H. unfold fill_loop. induction names as [|c t IH]; [reflexivity|].
  simpl. rewrite fill_column_fixed; [exact IH | apply H].
Qed.

Lemma filled_after_loop (df : DataFrame) (c : string) (j : nat) :
  well_formed df ->
  col_index c (columns (fill_loop (column_names df) df)) = Some j ->
  filled_col j (fill_loop (column_names df) df).
Proof.
  intros Hwf Hj.
  assert (Hj' : col_index c (columns df) = Some j).
  { rewrite <- Hj. symmetry. apply col_index_names, fill_loop_names. }
  pose proof (@fill_loop_state env (column_names df) df c j Hwf Hj') as Hst.
  destruct (in_dec string_dec c (column_names df)) as [_|Hn];
    [|exfalso; apply Hn; apply (col_index_In _ _ Hj')].
  unfold filled_col.
  change (col_values j (fill_loop (column_names df) df))
    with (snd (col_state j (fill_loop (column_names df) df))).
  change (dtype_at j (fill_loop (column_names df) df))
    with (fst (col_state j (fill_loop (column_names df) df))).
  rewrite Hst.
  destruct (fill_state_result (col_state j df)) as [H0|[H64 [Hnum _]]]; auto.
Qed.

Lemma dropna_rows (df : DataFrame) (r : row) :
  In r (rows (dropna df)) -> existsb isnull (snd r) = false.
Proof.
  simpl. intros H. apply filter_In in H. destruct H as [_ H].
  now apply negb_true_iff in H.
Qed.

Lemma dropna_fixed (df : DataFrame) :
  (forall r, In r (rows df) -> existsb isnull (snd r) = false) ->
  dropna df = df.
Proof.
  intros H. destruct df as [cols rs]. unfold dropna. simpl in *. f_equal.
  induction rs as [|r t IH]; simpl; [reflexivity|].
  rewrite (H r (or_introl eq_refl)). simpl. rewrite IH; [reflexivity|].
  intros r' Hr'. apply H. now right.
Qed.

Lemma no_null_row_column (df : DataFrame) (j : nat) :
  well_formed df -> (j < List.length (columns df))%nat ->
  (forall r, In r (rows df) -> existsb isnull (snd r) = false) ->
  null_count (col_values j df) = 0%nat.
Proof.
  intros Hwf Hj H. apply null_count_zero. unfold col_values.
  rewrite Forall_map, Forall_forall. intros r Hr.
  unfold well_formed in Hwf. rewrite Forall_forall in Hwf.
  specialize (Hwf r Hr). specialize (H r Hr).
  destruct (isnull (cell_at j r)) eqn:E; [|reflexivity].
  assert (Hex : existsb isnull (snd r) = true).
  { apply existsb_exists. exists (cell_at j r). split; [|assumption].
    unfold cell_at. apply nth_In. lia. }
  congruence.
Qed.

Lemma handle_dates_fixed (hm : string) (df : DataFrame) (jd : nat) :
  col_index "date" (columns df) = Some jd ->
  dtype_at jd df = Datetime64 ->
  Forall time_or_na (col_values jd df) ->
  (String.eqb hm "drop" = true -> null_count (col_values jd df) = 0%nat) ->
  handle_dates hm true df = df.
Proof.
  intros Hj Hdt Hcells Hdrop. unfold handle_dates.
  rewrite Hj, (to_datetime_update df Hj).
  destruct (col_index_Some _ _ Hj) as [Hlt _].
  assert (Hfix : update_col jd Datetime64 to_datetime_cell df = df).
  { apply update_col_fixed; [assumption | assumption |].
    eapply Forall_impl; [|exact Hcells]. now intros []. }
  rewrite Hfix.
  destruct (Nat.ltb 0 (null_count (col_values jd df))) eqn:En; [|reflexivity].
  destruct (String.eqb hm "drop"); [|reflexivity].
  rewrite (Hdrop eq_refl) in En. discriminate.
Qed.

Lemma dated_column (df : DataFrame) (jd : nat) :
  well_formed df -> col_index "date" (columns df) = Some jd ->
  col_state jd (update_col jd Datetime64 to_datetime_cell df)
  = (Datetime64, map to_datetime_cell (col_values jd df)) /\
  Forall time_or_na (map to_datetime_cell (col_values jd df)).
Proof.
  intros Hwf Hj. destruct (col_index_Some _ _ Hj) as [Hlt _]. split.
  - unfold col_state.
    now rewrite update_col_dtype_same, update_col_values_same.
  - rewrite Forall_map. apply Forall_forall. intros c _.
    destruct c; simpl; auto.
    + now destruct (epoch_datetime q).
    + now destruct (parse_datetime s).
Qed.

Lemma clean_data_stable (X Y : DataFrame) (hm : string) (fd : bool) :
  Y = drop_duplicates X ->
  handle_missing_values hm (handle_dates hm fd Y) = Y ->
  clean_data Y true hm fd = Y.
Proof.
  intros HY Hst. unfold clean_data. rewrite Hst. simpl.
  rewrite HY. apply drop_duplicates_idempotent.
Qed.

(** The date column once the fill loop has visited it. *)
Lemma date_state_after_fill (cs : list cell) :
  Forall time_or_na cs ->
  let st := fill_state (Datetime64, cs) in
  (fst st = Datetime64 /\ Forall is_time (snd st)) \/
  (fst st = Object /\ Forall time_or_unknown (snd st) /\
   Exists (fun c => c = Str "Unknown") (snd st)).
Proof.
  intros Hcs. simpl.
  destruct (Nat.ltb 0 (null_count cs)) eqn:En.
  - right. simpl. split; [reflexivity|]. split.
    + unfold fillna. rewrite Forall_map. eapply Forall_impl; [|exact Hcs].
      now intros [].
    + apply Nat.ltb_lt in En. clear Hcs. unfold null_count, fillna in *.
      induction cs as [|c t IH]; simpl in *; [lia|].
      destruct (isnull c) eqn:E; [now left|]. right. now apply IH.
  - left. simpl. split; [reflexivity|].
    apply Nat.ltb_ge in En. assert (H0 : null_count cs = 0%nat) by lia.
    apply null_count_zero in H0.
    rewrite Forall_forall in *. intros c Hc.
    specialize (Hcs c Hc). specialize (H0 c Hc). now destruct c.
Qed.

Lemma cell_eqb_unknown (c : cell) :
  cell_eqb (Str "Unknown") c = true -> c = Str "Unknown".
Proof.
  destruct c; cbn [cell_eqb]; try discriminate.
  intros H. apply String.eqb_eq in H. now subst.
Qed.

Lemma unknown_survives (df : DataFrame) (j : nat) :
  Exists (fun c => c = Str "Unknown") (col_values j df) ->
  Exists (fun c => c = Str "Unknown") (col_values j (drop_duplicates df)).
Proof.
  unfold col_values. rewrite !Exists_exists.
  intros [c [Hin Hc]]. apply in_map_iff in Hin. destruct Hin as [r [Hr Hin]].
  destruct (drop_duplicates_represents df r Hin) as [r' [Hin' Heq]].
  exists (cell_at j r'). split; [now apply in_map|].
  apply cell_eqb_unknown. rewrite <- Hc, <- Hr. unfold cell_at.
  now apply cells_eqb_nth.
Qed.

Lemma fill_loop_through_date (names : list string) (Z0 Y : DataFrame) :
  fill_column "date" Z0 = Y ->
  (forall c, c <> "date" -> fill_column c Z0 = Z0) ->
  (forall c, fill_column c Y = Y) ->
  fill_loop names Z0 = if in_dec string_dec "date" names then Y else Z0.
Proof.
  intros Hdate Hother HY. unfold fill_loop.
  assert (HfixY : forall l, fold_left (fun d col => fill_column col d) l Y = Y).
  { induction l as [|c t IH]; simpl; [reflexivity|]. now rewrite HY. }
  induction names as [|c t IH]; [reflexivity|]. simpl fold_left.
  destruct (string_dec c "date") as [->|Hne].
  - rewrite Hdate, HfixY.
    destruct (in_dec string_dec "date" ("date" :: t)) as [_|Hn];
      [reflexivity | exfalso; apply Hn; now left].
  - rewrite (Hother c Hne), IH.
    destruct (in_dec string_dec "date" t) as [Hi|Hn];
      destruct (in_dec string_dec "date" (c :: t)) as [Hi'|Hn']; try reflexivity.
    + exfalso. apply Hn'. now right.
    + exfalso. destruct Hi' as [E|E]; [now apply Hne | now apply Hn].
Qed.

(** The second pass over a frame cleaned with the fill policy: the date
    column is parsed again and filled again. *)
Lemma refill_dated (Y : DataFrame) (jd : nat) :
  parse_datetime "Unknown" = None ->
  well_formed Y ->
  col_index "date" (columns Y) = Some jd ->
  (forall c j, col_index c (columns Y) = Some j -> filled_col j Y) ->
  (dtype_at jd Y = Datetime64 /\ Forall is_time (col_values jd Y)) \/
  (dtype_at jd Y = Object /\ Forall time_or_unknown (col_values jd Y) /\
   Exists (fun c => c = Str "Unknown") (col_values jd Y)) ->
  handle_missing_values "fill" (handle_dates "fill" true Y) = Y.
Proof.
  intros Hparse Hwf Hj Hfilled Hdate.
  destruct (col_index_Some _ _ Hj) as [Hlt _].
  rewrite (@handle_dates_keep "fill" Y jd Hj eq_refl).
  rewrite handle_missing_values_fill.
  set (Z0 := update_col jd Datetime64 to_datetime_cell Y).
  assert (Hnames : column_names Z0 = column_names Y) by apply update_col_names.
  rewrite Hnames.
  destruct Hdate as [[Hdt Htime]|[Hdt [Hcells Hex]]].
  - assert (HZ : Z0 = Y).
    { apply update_col_fixed; [assumption | assumption |].
      eapply Forall_impl; [|exact Htime]. now intros []. }
    rewrite HZ. now apply fill_loop_fixed.
  - rewrite (@fill_loop_through_date (column_names Y) Z0 Y).
    + destruct (in_dec string_dec "date" (column_names Y)) as [_|Hn];
        [reflexivity | exfalso; apply Hn; apply (col_index_In _ _ Hj)].
    + unfold fill_column.
      assert (HjZ : col_index "date" (columns Z0) = Some jd).
      { rewrite <- Hj. now apply col_index_names. }
      rewrite HjZ.
      assert (Hvals : col_values jd Z0 = map to_datetime_cell (col_values jd Y)).
      { unfold Z0. now apply update_col_values_same. }
      assert (Hnull : Nat.ltb 0 (null_count (col_values jd Z0)) = true).
      { rewrite Hvals. apply Nat.ltb_lt. clear -Hex Hparse.
        unfold null_count.
        induction Hex as [c t Hc|c t Hex IH]; simpl.
        - subst c. simpl. rewrite Hparse. simpl. lia.
        - destruct (isnull (to_datetime_cell c)); simpl; lia. }
      rewrite Hnull.
      assert (HdtZ : dtype_at jd Z0 = Datetime64).
      { unfold Z0. now apply update_col_dtype_same. }
      rewrite HdtZ. simpl is_int64_or_float64. cbv iota.
      unfold fillna. rewrite (@setitem_update _ _ _ _ _ HjZ).
      unfold Z0. rewrite update_col_twice by assumption.
      apply update_col_fixed; [assumption | assumption |].
      eapply Forall_impl; [|exact Hcells].
      intros [| | s | |]; simpl; try contradiction; auto.
      intros ->. now rewrite Hparse.
    + intros c Hne. apply fill_column_fixed. intros j HjZ.
      assert (HjY : col_index c (columns Y) = Some j).
      { rewrite <- HjZ. symmetry. now apply col_index_names. }
      assert (Hjne : jd <> j).
      { apply (@col_index_distinct "date" c (columns Y) jd j Hj HjY). congruence. }
      specialize (Hfilled c j HjY). unfold filled_col in *.
      unfold Z0. rewrite update_col_values_other, update_col_dtype_other by assumption.
      exact Hfilled.
    + intros c. apply fill_column_fixed. apply Hfilled.
Qed.

Lemma handle_missing_values_other (hm : string) (df : DataFrame) :
  String.eqb hm "drop" = false -> String.eqb hm "fill" = false ->
  handle_missing_values hm df = df.
Proof.
  intros Hd Hf. unfold handle_missing_values. rewrite Hd, Hf.
  now destruct (negb _).
Qed.

Lemma handle_missing_values_wf (hm : string) (df : DataFrame) :
  well_formed df -> well_formed (handle_missing_values hm df).
Proof.
  intros Hwf. unfold handle_missing_values.
  destruct (negb _); [|assumption].
  destruct (String.eqb hm "drop").
  - eapply sub_frame_wf; [apply dropna_sub | assumption].
  - destruct (String.eqb hm "fill"); [|assumption].
    now apply (@fill_loop_wf env).
Qed.

Lemma handle_dates_names (hm : string) (fd : bool) (df : DataFrame) :
  column_names (handle_dates hm fd df) = column_names df.
Proof.
  destruct fd; [|now rewrite handle_dates_skip by now left].
  destruct (col_index "date" (columns df)) as [jd|] eqn:Hj;
    [|now rewrite handle_dates_skip by now right].
  destruct (handle_dates_sub hm df Hj) as [Hc _].
  unfold column_names at 1. rewrite Hc. apply update_col_names.
Qed.

Lemma handle_missing_values_names (hm : string) (df : DataFrame) :
  column_names (handle_missing_values hm df) = column_names df.
Proof.
  unfold handle_missing_values.
  destruct (negb _); [|reflexivity].
  destruct (String.eqb hm "drop"); [reflexivity|].
  destruct (String.eqb hm "fill"); [|reflexivity].
  apply (@fill_loop_names env).
Qed.

(** C4.  Cleaning with [remove_duplicates = True] is idempotent: applied to
    its own output, under the same policy, [clean_data] returns that output
    unchanged.  The string ["Unknown"] is assumed not to parse as a date. *)
Theorem clean_data_idempotent (df : DataFrame) (handle_missing : string)
  (fix_dates : bool) :
  parse_datetime "Unknown" = None ->
  well_formed df ->
  clean_data (clean_data df true handle_missing fix_dates)
             true handle_missing fix_dates
  = clean_data df true handle_missing fix_dates.
Proof.
  intros Hparse Hwf.
  set (D1 := handle_dates handle_missing fix_dates df).
  set (X := handle_missing_values handle_missing D1).
  set (Y := clean_data df true handle_missing fix_dates).
  assert (HY : Y = drop_duplicates X) by reflexivity.
  assert (HwfD : well_formed D1) by now apply handle_dates_wf.
  assert (HwfX : well_formed X) by now apply handle_missing_values_wf.
  assert (HsubYX : sub_frame Y X) by (rewrite HY; apply drop_duplicates_sub).
  assert (HwfY : well_formed Y) by (eapply sub_frame_wf; eassumption).
  assert (Hnames : column_names Y = column_names df).
  { unfold column_names at 1. destruct HsubYX as [-> _].
    fold (column_names X). unfold X, D1.
    now rewrite handle_missing_values_names, handle_dates_names. }
  assert (Hidx : forall c, col_index c (columns Y) = col_index c (columns df)).
  { intros c. now apply col_index_names. }
  apply (@clean_data_stable X Y handle_missing fix_dates HY).
  (* whether step 1 touches the date column *)
  assert (Hdates :
    (fix_dates = false \/ col_index "date" (columns df) = None) \/
    (fix_dates = true /\ exists jd, col_index "date" (columns df) = Some jd)).
  { destruct fix_dates; [|now left; left].
    destruct (col_index "date" (columns df)) as [jd|]; [right; eauto | now left; right]. }
  destruct (String.eqb handle_missing "fill") eqn:Efill.
  - (* fill *)
    apply String.eqb_eq in Efill. subst handle_missing.
    assert (HX : X = fill_loop (column_names D1) D1) by reflexivity.
    assert (HfilledY : forall c j, col_index c (columns Y) = Some j -> filled_col j Y).
    { intros c j Hj. apply (@filled_col_sub j Y X HsubYX).
      rewrite HX. apply (@filled_after_loop D1 c j HwfD).
      rewrite <- HX, <- Hj. symmetry. apply (@sub_frame_col_index c _ _ HsubYX). }
    destruct Hdates as [Hskip|[-> [jd Hjd]]].
    + rewrite handle_dates_skip.
      * rewrite handle_missing_values_fill. now apply fill_loop_fixed.
      * destruct Hskip as [->|Hno]; [now left | right; now rewrite Hidx].
    + assert (HjY : col_index "date" (columns Y) = Some jd) by now rewrite Hidx.
      apply (@refill_dated Y jd Hparse HwfY HjY HfilledY).
      assert (HD1 : D1 = update_col jd Datetime64 to_datetime_cell df).
      { apply (@handle_dates_keep "fill" df jd Hjd eq_refl). }
      destruct (dated_column Hwf Hjd) as [Hst Hcells].
      rewrite <- HD1 in Hst.
      assert (HjD : col_index "date" (columns D1) = Some jd).
      { rewrite <- Hjd. apply col_index_names. apply handle_dates_names. }
      pose proof (@fill_loop_state env (column_names D1) D1 "date" jd HwfD HjD) as HstX.
      rewrite <- HX in HstX.
      destruct (in_dec string_dec "date" (column_names D1)) as [_|Hn];
        [|exfalso; apply Hn; apply (col_index_In _ _ HjD)].
      rewrite Hst in HstX.
      pose proof (date_state_after_fill Hcells) as Hcases.
      cbv zeta in Hcases. rewrite <- HstX in Hcases. simpl fst in Hcases.
      simpl snd in Hcases.
      rewrite (@sub_frame_dtype jd Y X HsubYX).
      destruct Hcases as [[Hdt Htime]|[Hdt [Hcs Hex]]].
      * left. split; [assumption|].
        now apply (@sub_frame_values _ jd Y X HsubYX).
      * right. split; [assumption|]. split.
        -- now apply (@sub_frame_values _ jd Y X HsubYX).
        -- rewrite HY. now apply unknown_survives.
  - destruct (String.eqb handle_missing "drop") eqn:Edrop.
    + (* drop *)
      apply String.eqb_eq in Edrop. subst handle_missing.
      assert (HX : X = dropna D1) by reflexivity.
      assert (Hrows : forall r, In r (rows Y) -> existsb isnull (snd r) = false).
      { intros r Hr. apply (@dropna_rows D1). rewrite <- HX.
        now apply (proj2 HsubYX). }
      assert (Hdropna : handle_missing_values "drop" Y = Y).
      { change (dropna Y = Y). now apply dropna_fixed. }
      destruct Hdates as [Hskip|[-> [jd Hjd]]].
      * rewrite handle_dates_skip; [exact Hdropna|].
        destruct Hskip as [->|Hno]; [now left | right; now rewrite Hidx].
      * assert (HjY : col_index "date" (columns Y) = Some jd) by now rewrite Hidx.
        assert (Hsub : sub_frame Y (update_col jd Datetime64 to_datetime_cell df)).
        { eapply sub_frame_trans; [exact HsubYX|].
          eapply sub_frame_trans; [rewrite HX; apply dropna_sub|].
          apply (handle_dates_sub "drop" df Hjd). }
        destruct (dated_column Hwf Hjd) as [Hst Hcells].
        injection Hst as Hdt Hvals.
        rewrite (@handle_dates_fixed "drop" Y jd HjY); [exact Hdropna | | |].
        -- now rewrite (@sub_frame_dtype jd _ _ Hsub).
        -- apply (@sub_frame_values _ jd _ _ Hsub). now rewrite Hvals.
        -- intros _. apply no_null_row_column; [assumption | | assumption].
           now destruct (col_index_Some _ _ HjY).
    + (* report, or any other policy string *)
      assert (HX : X = D1) by now apply handle_missing_values_other.
      rewrite (@handle_missing_values_other handle_missing _ Edrop Efill).
      destruct Hdates as [Hskip|[-> [jd Hjd]]].
      * apply handle_dates_skip.
        destruct Hskip as [->|Hno]; [now left | right; now rewrite Hidx].
      * assert (HjY : col_index "date" (columns Y) = Some jd) by now rewrite Hidx.
        assert (Hsub : sub_frame Y (update_col jd Datetime64 to_datetime_cell df)).
        { eapply sub_frame_trans; [exact HsubYX|]. rewrite HX.
          apply (handle_dates_sub handle_missing df Hjd). }
        destruct (dated_column Hwf Hjd) as [Hst Hcells].
        injection Hst as Hdt Hvals.
        apply (@handle_dates_fixed handle_missing Y jd HjY).
        -- now rewrite (@sub_frame_dtype jd _ _ Hsub).
        -- apply (@sub_frame_values _ jd _ _ Hsub). now rewrite Hvals.
        -- rewrite Edrop. discriminate.
Qed.

End CleanerProperties.

(** *** Worked instances *)

Lemma cleaning_example_wf : well_formed cleaning_example.
Proof. repeat constructor. Qed.



Lemma clean_data_idempotent_witness :
  @parse_datetime sample_env "Unknown" = None /\
  well_formed cleaning_example /\
  @clean_data sample_env
     (@clean_data sample_env cleaning_example true "fill" true)
     true "fill" true
  = @clean_data sample_env cleaning_example true "fill" true.
Proof.
  split; [reflexivity|]. split; [exact cleaning_example_wf|].
  exact (@clean_data_idempotent sample_env cleaning_example "fill" true
                                eq_refl cleaning_example_wf).
Defined.



Lemma row_count_monotone_witness :
  (len (@clean_data sample_env cleaning_example true "drop" true)
   <= len cleaning_example)%nat /\
  In "headline" (column_names cleaning_example) /\
  In "headline"
     (column_names (fst (@preprocess_data sample_env cleaning_example))).
Proof.
  split; [exact (proj1 (@row_count_monotone sample_env)
                       cleaning_example true "drop" true)|].
  assert (Hin : In "headline" (column_names cleaning_example)) by now left.
  split; [exact Hin|].
  exact (proj2 (proj2 (@row_count_monotone sample_env) cleaning_example)
               "headline" Hin).
Defined.

(** ** Quality checker: the sections of the report *)

Lemma length_drop_flagged {A : Type} (l : list A) (flags : list bool) :
  List.length flags = List.length l ->
  (List.length (drop_flagged l flags) + count_true flags = List.length l)%nat.
Proof.
  revert flags. induction l as [|x t IH]; intros [|b f]; simpl; try discriminate; auto.
  intros [= H]. specialize (IH f H). unfold count_true in *. simpl.
  destruct b; simpl; lia.
Qed.

Lemma duplicated_from_length {K : Type} (eqb : K -> K -> bool) (seen keys : list K) :
  List.length (duplicated_from eqb seen keys) = List.length keys.
Proof.
  revert seen. induction keys as [|k t IH]; intros seen; simpl; [reflexivity|].
  destruct (existsb (eqb k) seen); simpl; now rewrite IH.
Qed.





Lemma combine_seq_names (names : list string) (k : nat) (f : nat -> string -> string * (nat * Q))
  (g : nat -> string * (nat * Q)) :
  (forall i, (i < List.length names)%nat -> f (k + i)%nat (nth i names EmptyString) = g (k + i)%nat) ->
  map (fun jc => f (fst jc) (snd jc)) (combine (seq k (List.length names)) names)
  = map g (seq k (List.length names)).
Proof.
  revert k. induction names as [|c t IH]; intros k H; simpl; [reflexivity|].
  f_equal.
  - specialize (H 0%nat). simpl in H. rewrite Nat.add_0_r in H. apply H. lia.
  - apply IH. intros i Hi. specialize (H (S i)). simpl in H.
    replace (S k + i)%nat with (k + S i)%nat by lia. apply H. lia.
Qed.

Section CheckerReport.

Context {env : Env}.


Lemma missing_report_table (df : DataFrame) :
  missing_report df
  = let table := fold_right insert_desc []
                   (filter (fun e => Nat.ltb 0 (fst (snd e)))
                           (map (missing_entry df)
                                (seq 0 (List.length (columns df))))) in
    if Nat.ltb 0 (List.length table) then Some table else None.
Proof.
  unfold missing_report. cbv zeta.
  assert (E : map (fun jc : nat * string =>
                     (snd jc, (null_count (col_values (fst jc) df),
                               Qnat (null_count (col_values (fst jc) df)) / Qnat (len df) * 100)))
                  (combine (seq 0 (List.length (columns df))) (column_names df))
              = map (missing_entry df) (seq 0 (List.length (columns df)))).
  { assert (Hlen : List.length (columns df) = List.length (column_names df)).
    { unfold column_names. now rewrite length_map. }
    rewrite Hlen.
    apply (combine_seq_names (column_names df) 0
             (fun j c => (c, (null_count (col_values j df),
                              Qnat (null_count (col_values j df)) / Qnat (len df) * 100)))
             (missing_entry df)).
    intros i Hi. reflexivity. }
  rewrite E. reflexivity.
Qed.


Lemma filter_partition_length {A : Type} (f : A -> bool) (l : list A) :
  (List.length (filter f l) + List.length (filter (fun x => negb (f x)) l)
   = List.length l)%nat.
Proof.
  induction l as [|x t IH]; simpl; [reflexivity|].
  destruct (f x); simpl; lia.
Qed.

Lemma count_true_le (m : list bool) : (count_true m <= List.length m)%nat.
Proof. apply filter_length_le. Qed.

(** X3. The duplicate-row count that the checker reports is the number of
    rows that [drop_duplicates] removes, and the cleaner removes as many rows
    as its last frame has flagged duplicates. *)
Theorem duplicate_rows_removed (df : DataFrame) :
  (len (drop_duplicates df) + count_true (duplicated df) = len df)%nat /\
  match check_data_quality df with
  | Ok report =>
      fst (fst (duplicates report)) = (len df - len (drop_duplicates df))%nat
  | Raise _ => True
  end /\
  (forall handle_missing fix_dates,
     let before := handle_missing_values handle_missing
                     (handle_dates handle_missing fix_dates df) in
     (len (clean_data df true handle_missing fix_dates)
      + count_true (duplicated before) = len before)%nat).
Proof.
  assert (H : forall d, (len (drop_duplicates d) + count_true (duplicated d) = len d)%nat).
  { intros d. unfold len, drop_duplicates, duplicated. simpl.
    apply length_drop_flagged. now rewrite duplicated_from_length, length_map. }
  split; [apply H|]. split.
  - unfold check_data_quality.
    destruct (getitem df "headline"); [|exact I]. simpl.
    destruct (getitem df "url"); [|exact I]. simpl.
    specialize (H df). lia.
  - intros hm fd before. apply (H before).
Qed.

(** X4. With a [date] column the checker reports a valid and an invalid
    count that add up to the number of rows; the invalid ones are the dates
    that do not parse, nulls included.  Without the column the report has no
    date section. *)
Theorem date_quality_counts (df : DataFrame) :
  match col_index "date" (columns df) with
  | Some j =>
      exists valid invalid,
        date_report df = Some (Some (valid, invalid)) /\
        (valid + invalid = len df)%nat /\
        invalid = null_count (to_datetime (col_values j df)) /\
        (null_count (col_values j df) <= invalid)%nat
  | None => date_report df = None
  end.
Proof.
  unfold date_report. destruct (col_index "date" (columns df)) as [j|]; [|reflexivity].
  do 2 eexists. split; [reflexivity|]. split; [|split; [reflexivity|]].
  - assert (Hlen : List.length (to_datetime (col_values j df)) = len df).
    { unfold to_datetime, col_values, len. now rewrite !length_map. }
    pose proof (filter_partition_length isnull (to_datetime (col_values j df))) as Hp.
    unfold null_count. change notna with (fun c => negb (isnull c)). lia.
  - unfold null_count, to_datetime.
    induction (col_values j df) as [|c t IH]; simpl; [lia|].
    destruct c; simpl; try lia.
    + destruct (epoch_datetime q); simpl; lia.
    + destruct (parse_datetime s); simpl; lia.
Qed.





Lemma Qnat_lt_inv (a b : nat) : Qnat a < Qnat b -> (a < b)%nat.
Proof. unfold Qnat. rewrite <- Zlt_Qlt. lia. Qed.







End CheckerReport.

(** ** Cleaner: what the output looks like *)

Lemma subseq_refl {A : Type} (l : list A) : subseq l l.
Proof. induction l; constructor; assumption. Qed.

Lemma subseq_trans {A : Type} (a b c : list A) :
  subseq a b -> subseq b c -> subseq a c.
Proof.
  intros Hab Hbc. revert a Hab.
  induction Hbc as [|x b c Hbc IH|x b c Hbc IH]; intros a Hab.
  - exact Hab.
  - inversion Hab; subst.
    + constructor. now apply IH.
    + apply subseq_drop. now apply IH.
  - apply subseq_drop. now apply IH.
Qed.

Lemma subseq_filter {A : Type} (f : A -> bool) (l : list A) :
  subseq (filter f l) l.
Proof.
  induction l as [|x t IH]; simpl; [constructor|].
  destruct (f x); now constructor.
Qed.

Lemma subseq_drop_flagged {A : Type} (l : list A) (flags : list bool) :
  subseq (drop_flagged l flags) l.
Proof.
  revert flags. induction l as [|x t IH]; intros [|b f]; simpl;
    try apply subseq_refl.
  destruct b; constructor; apply IH.
Qed.

Lemma subseq_map {A B : Type} (f : A -> B) (l' l : list A) :
  subseq l' l -> subseq (map f l') (map f l).
Proof. induction 1; simpl; constructor; assumption. Qed.

Lemma update_col_labels (j : nat) (dt : dtype) (h : cell -> cell) (df : DataFrame) :
  map fst (rows (update_col j dt h df)) = map fst (rows df).
Proof. unfold update_col. simpl. rewrite map_map. reflexivity. Qed.

Lemma total_nulls_zero (df : DataFrame) :
  (forall r, In r (rows df) -> existsb isnull (snd r) = false) ->
  total_nulls df = 0%nat.
Proof.
  unfold total_nulls. induction (rows df) as [|r t IH]; intros H; [reflexivity|].
  simpl. rewrite IH by (intros r' Hr'; apply H; now right).
  assert (Hr : existsb isnull (snd r) = false) by (apply H; now left).
  unfold null_count. clear -Hr. induction (snd r) as [|c cs IHc]; [reflexivity|].
  simpl in *. apply orb_false_iff in Hr. destruct Hr as [Hc Hcs].
  rewrite Hc. now apply IHc.
Qed.

Lemma duplicated_after_dedup (seen : list (list cell)) (rs : list row) :
  count_true (duplicated_from cells_eqb seen (map snd (dedup_from seen rs))) = 0%nat.
Proof.
  revert seen. induction rs as [|r t IH]; intros seen; [reflexivity|].
  rewrite dedup_from_cons.
  destruct (existsb (cells_eqb (snd r)) seen) eqn:E; [apply IH|].
  simpl. rewrite E. unfold count_true in *. simpl. apply IH.
Qed.

Section CleanerOutput.

Context {env : Env}.

Lemma fill_column_labels (col : string) (df : DataFrame) :
  map fst (rows (fill_column col df)) = map fst (rows df).
Proof.
  destruct (col_index col (columns df)) as [j|] eqn:Hj.
  - destruct (fill_column_update col df Hj) as [->|[dt [h ->]]];
      [reflexivity | apply update_col_labels].
  - unfold fill_column. now rewrite Hj.
Qed.

Lemma fill_loop_labels (names : list string) (df : DataFrame) :
  map fst (rows (fill_loop names df)) = map fst (rows df).
Proof.
  revert df. unfold fill_loop.
  induction names as [|c t IH]; intros df; simpl; [reflexivity|].
  now rewrite IH, fill_column_labels.
Qed.

Lemma handle_dates_labels (hm : string) (fd : bool) (df : DataFrame) :
  subseq (map fst (rows (handle_dates hm fd df))) (map fst (rows df)).
Proof.
  unfold handle_dates.
  destruct (col_index "date" (columns df)) as [j|] eqn:Hj; [|apply subseq_refl].
  destruct fd; [|apply subseq_refl].
  rewrite (to_datetime_update df Hj).
  destruct (Nat.ltb 0 _).
  - destruct (String.eqb hm "drop").
    + unfold dropna_subset. simpl rows.
      eapply subseq_trans; [apply subseq_map, subseq_filter|].
      rewrite <- (update_col_labels j Datetime64 to_datetime_cell df).
      apply subseq_refl.
    + rewrite update_col_labels. apply subseq_refl.
  - rewrite update_col_labels. apply subseq_refl.
Qed.

Lemma handle_missing_values_labels (hm : string) (df : DataFrame) :
  subseq (map fst (rows (handle_missing_values hm df))) (map fst (rows df)).
Proof.
  unfold handle_missing_values.
  destruct (negb _); [|apply subseq_refl].
  destruct (String.eqb hm "drop").
  - unfold dropna. simpl. apply subseq_map, subseq_filter.
  - destruct (String.eqb hm "fill"); [|apply subseq_refl].
    change (subseq (map fst (rows (fill_loop (column_names df) df))) (map fst (rows df))).
    rewrite fill_loop_labels. apply subseq_refl.
Qed.

Lemma clean_data_names (df : DataFrame) (rd : bool) (hm : string) (fd : bool) :
  column_names (clean_data df rd hm fd) = column_names df.
Proof.
  unfold clean_data.
  destruct (remove_duplicate_rows_sub rd
              (handle_missing_values hm (handle_dates hm fd df))) as [Hc _].
  unfold column_names at 1. rewrite Hc.
  fold (column_names (handle_missing_values hm (handle_dates hm fd df))).
  now rewrite handle_missing_values_names, handle_dates_names.
Qed.

(** X7. The cleaner keeps the column names and their order, and the index
    labels of its output are labels of the input, in their order: rows are
    dropped, never added, moved or relabelled. *)
Theorem clean_data_keeps_columns_and_order (df : DataFrame)
  (remove_duplicates : bool) (handle_missing : string) (fix_dates : bool) :
  column_names (clean_data df remove_duplicates handle_missing fix_dates)
  = column_names df /\
  subseq (map fst (rows (clean_data df remove_duplicates handle_missing fix_dates)))
         (map fst (rows df)).
Proof.
  split; [apply clean_data_names|]. unfold clean_data.
  - eapply subseq_trans; [|apply (handle_dates_labels handle_missing fix_dates)].
    eapply subseq_trans; [|apply handle_missing_values_labels].
    destruct remove_duplicates; simpl; [|apply subseq_refl].
    apply subseq_map, subseq_drop_flagged.
Qed.

(** X8. Under the drop policy the output of the cleaner holds no null, in
    any column and for any input. *)
Theorem clean_data_drop_no_nulls (df : DataFrame) (remove_duplicates fix_dates : bool) :
  total_nulls (clean_data df remove_duplicates "drop" fix_dates) = 0%nat.
Proof.
  apply total_nulls_zero. intros r Hr. unfold clean_data in Hr.
  apply (proj2 (remove_duplicate_rows_sub remove_duplicates _)) in Hr.
  change (handle_missing_values "drop" (handle_dates "drop" fix_dates df))
    with (dropna (handle_dates "drop" fix_dates df)) in Hr.
  now apply dropna_rows in Hr.
Qed.

(** X9. With [remove_duplicates] no row of the output repeats an earlier
    one: nothing is flagged as a duplicate, a further [drop_duplicates]
    changes nothing, and the checker reports no duplicate row on it. *)
Theorem clean_data_no_duplicates (df : DataFrame) (handle_missing : string)
  (fix_dates : bool) :
  let out := clean_data df true handle_missing fix_dates in
  count_true (duplicated out) = 0%nat /\
  drop_duplicates out = out /\
  match check_data_quality out with
  | Ok report => fst (fst (duplicates report)) = 0%nat
  | Raise _ => True
  end.
Proof.
  intros out.
  assert (H0 : count_true (duplicated out) = 0%nat).
  { unfold out, clean_data. simpl remove_duplicate_rows.
    unfold drop_duplicates, duplicated. simpl rows.
    apply (duplicated_after_dedup []). }
  split; [exact H0|]. split.
  - unfold out, clean_data. simpl remove_duplicate_rows.
    apply drop_duplicates_idempotent.
  - unfold check_data_quality.
    destruct (getitem out "headline"); [|exact I]. simpl.
    destruct (getitem out "url"); [|exact I]. simpl. exact H0.
Qed.

Lemma filter_filter_absorb {A : Type} (f g : A -> bool) (l : list A) :
  (forall x, In x l -> f x = true -> g x = true) ->
  filter f (filter g l) = filter f l.
Proof.
  induction l as [|x t IH]; intros H; simpl; [reflexivity|].
  destruct (g x) eqn:Eg; simpl.
  - destruct (f x); rewrite IH; auto; intros y Hy; apply H; now right.
  - destruct (f x) eqn:Ef.
    + rewrite (H x (or_introl eq_refl) Ef) in Eg. discriminate.
    + apply IH. intros y Hy. apply H. now right.
Qed.

(** The rows that the date step drops are rows that the general step drops. *)
Lemma dropna_after_dropna_subset (df : DataFrame) (j : nat) :
  well_formed df -> (j < List.length (columns df))%nat ->
  dropna (dropna_subset j df) = dropna df.
Proof.
  intros Hwf Hj. unfold dropna, dropna_subset. simpl. f_equal.
  apply filter_filter_absorb. intros r Hr Hf.
  unfold well_formed in Hwf. rewrite Forall_forall in Hwf. specialize (Hwf r Hr).
  apply negb_true_iff in Hf. unfold notna. apply negb_true_iff.
  destruct (isnull (cell_at j r)) eqn:E; [|reflexivity].
  assert (Hex : existsb isnull (snd r) = true).
  { apply existsb_exists. exists (cell_at j r). split; [|assumption].
    unfold cell_at. apply nth_In. lia. }
  congruence.
Qed.

(** X10. Under the drop policy the removal of the rows with an invalid date
    is absorbed by the removal of the rows with a null: the cleaner is the
    date conversion, one [dropna] and the removal of duplicates. *)
Theorem clean_data_drop_single_pass (df : DataFrame) (remove_duplicates : bool)
  (j : nat) :
  well_formed df -> col_index "date" (columns df) = Some j ->
  clean_data df remove_duplicates "drop" true
  = remove_duplicate_rows remove_duplicates
      (dropna (setitem df "date" Datetime64 (to_datetime (col_values j df)))).
Proof.
  intros Hwf Hj. unfold clean_data. f_equal.
  change (handle_missing_values "drop" (handle_dates "drop" true df))
    with (dropna (handle_dates "drop" true df)).
  unfold handle_dates. rewrite Hj. cbv zeta.
  destruct (Nat.ltb 0 _); [|reflexivity].
  simpl String.eqb. cbv iota.
  rewrite (to_datetime_update df Hj).
  apply dropna_after_dropna_subset.
  - now apply update_col_wf.
  - destruct (col_index_Some _ _ Hj) as [Hlt _].
    unfold update_col. simpl. now rewrite replace_nth_length.
Qed.

Lemma remove_duplicate_rows_dtype (rd : bool) (df : DataFrame) (j : nat) :
  dtype_at j (remove_duplicate_rows rd df) = dtype_at j df.
Proof. apply sub_frame_dtype, remove_duplicate_rows_sub. Qed.



End CleanerOutput.

Lemma clean_data_drop_single_pass_witness :
  well_formed cleaning_example /\
  col_index "date" (columns cleaning_example) = Some 1%nat /\
  @clean_data sample_env cleaning_example true "drop" true
  = remove_duplicate_rows true
      (dropna (setitem cleaning_example "date" Datetime64
                       (@to_datetime sample_env (col_values 1 cleaning_example)))).
Proof.
  split; [exact cleaning_example_wf|]. split; [reflexivity|].
  exact (@clean_data_drop_single_pass sample_env cleaning_example true 1%nat
           cleaning_example_wf eq_refl).
Defined.


(** ** Loader and pipeline *)

Section PipelineProperties.

Context {env : Env}.






(** X13. A cap that is at least the number of records of the file changes
    nothing: the loader returns what it returns without a cap. *)
Theorem load_data_large_cap (file_path : string) (header : list string)
  (records : list (list string)) (N : Z) :
  open_file file_path = Some (Csv header records) ->
  (Z.of_nat (List.length records) <= N)%Z ->
  load_data file_path (Some N) = load_data file_path None.
Proof.
  intros Hf HN. unfold load_data, read_csv, truthy. rewrite Hf.
  destruct (Z.eqb_spec N 0) as [->|Hne]; [reflexivity|]. simpl.
  destruct (Z.ltb_spec N 0) as [Hneg|_]; [lia|]. simpl.
  rewrite firstn_all2; [reflexivity | lia].
Qed.

Lemma preprocess_data_ok_has_date (df : DataFrame) :
  snd (preprocess_data df) = Ok tt -> has_column "date" df = true.
Proof.
  unfold has_column. destruct (col_index "date" (columns df)) eqn:Hd; [reflexivity|].
  intros Hok. exfalso.
  assert (Et : extract_temporal_features df = df).
  { unfold extract_temporal_features. now rewrite Hd. }
  unfold preprocess_data in Hok. rewrite Et in Hok.
  unfold calculate_headline_metrics in Hok.
  destruct (col_index "headline" (columns df)) as [j|].
  - destruct (dtype_eqb _ _); [|discriminate]. simpl in Hok.
    unfold date_range, getitem, derive in Hok.
    rewrite !setitem_col_index_other in Hok by discriminate.
    rewrite Hd in Hok. discriminate.
  - simpl in Hok. unfold date_range, getitem in Hok. rewrite Hd in Hok. discriminate.
Qed.

Lemma clean_data_len (df : DataFrame) (rd : bool) (hm : string) (fd : bool) :
  (len (clean_data df rd hm fd) <= len df)%nat.
Proof.
  unfold clean_data.
  etransitivity; [apply remove_duplicate_rows_len|].
  etransitivity; [apply handle_missing_values_len|].
  apply handle_dates_len.
Qed.

Lemma has_column_names (c : string) (df df' : DataFrame) :
  column_names df = column_names df' -> has_column c df = has_column c df'.
Proof.
  intros H. unfold has_column. now rewrite (col_index_names c _ _ H).
Qed.

(** X14. When the pipeline returns, the report is the one of the frame as
    loaded (not as cleaned), that frame has the columns [headline], [url] and
    [date], and the returned frame has no more rows than it and every one of
    its column names. *)
Theorem pipeline_returns (file_path : string) (sample_size : option Z)
  (clean remove_duplicates : bool) (handle_missing : string)
  (df : DataFrame) (report : quality_report) :
  load_and_preprocess_data file_path sample_size clean remove_duplicates
                           handle_missing = Ok (df, report) ->
  exists raw,
    load_data file_path sample_size = Ok raw /\
    check_data_quality raw = Ok report /\
    has_column "headline" raw = true /\
    has_column "url" raw = true /\
    has_column "date" raw = true /\
    (len df <= len raw)%nat /\
    forall c, In c (column_names raw) -> In c (column_names df).
Proof.
  unfold load_and_preprocess_data.
  destruct (load_data file_path sample_size) as [raw|] eqn:Hl; [|discriminate].
  simpl. destruct (check_data_quality raw) as [rep|] eqn:Hc; [|discriminate].
  simpl.
  set (cleaned := if clean then clean_data raw remove_duplicates handle_missing true
                  else raw).
  destruct (preprocess_data cleaned) as [d [[]|e]] eqn:Hp; [|discriminate].
  simpl. intros [= <- <-].
  exists raw. split; [reflexivity|]. split; [exact Hc|].
  assert (Hnames : column_names cleaned = column_names raw).
  { unfold cleaned. destruct clean; [apply clean_data_names | reflexivity]. }
  assert (Hlen : (len cleaned <= len raw)%nat).
  { unfold cleaned. destruct clean; [apply clean_data_len | lia]. }
  assert (Hcols : has_column "headline" raw = true /\ has_column "url" raw = true).
  { unfold check_data_quality, getitem in Hc. unfold has_column.
    destruct (col_index "headline" (columns raw)); [|discriminate].
    destruct (col_index "url" (columns raw)); [|discriminate]. auto. }
  destruct Hcols as [Hh Hu]. split; [exact Hh|]. split; [exact Hu|].
  assert (Hd : d = fst (preprocess_data cleaned)) by now rewrite Hp.
  split.
  - rewrite <- (has_column_names "date" cleaned raw Hnames).
    apply preprocess_data_ok_has_date. now rewrite Hp.
  - rewrite Hd, preprocess_data_frame. split.
    + rewrite calculate_headline_metrics_len, extract_temporal_features_len. exact Hlen.
    + intros c Hin. rewrite <- Hnames in Hin.
      now apply calculate_headline_metrics_names, extract_temporal_features_names.
Qed.

End PipelineProperties.


Lemma load_data_large_cap_witness :
  @load_data sample_env "ratings.csv" (Some 7%Z)
  = @load_data sample_env "ratings.csv" None.
Proof.
  apply (@load_data_large_cap sample_env "ratings.csv" _ _ 7%Z eq_refl).
  simpl. lia.
Defined.

Lemma pipeline_returns_witness :
  exists df report raw,
    @load_and_preprocess_data pipeline_env "data/raw.csv" None true true "report"
    = Ok (df, report) /\
    @load_data pipeline_env "data/raw.csv" None = Ok raw /\
    @check_data_quality pipeline_env raw = Ok report /\
    has_column "date" raw = true /\
    (len df <= len raw)%nat.
Proof.
  destruct (@load_and_preprocess_data pipeline_env "data/raw.csv" None true
              true "report") as [[df report]|e] eqn:E;
    [|vm_compute in E; discriminate E].
  destruct (@pipeline_returns pipeline_env "data/raw.csv" None true true
              "report" df report E) as [raw [Hl [Hc [_ [_ [Hd [Hlen _]]]]]]].
  exists df, report, raw. repeat split; assumption.
Defined.

(** ** Feature builder: the derived columns *)

Lemma set_cells_append (h : row -> cell) (rs : list row) :
  set_cells None rs (map h rs)
  = map (fun r : row => (fst r, (snd r ++ [h r])%list)) rs.
Proof.
  induction rs as [|r t IH]; simpl; [reflexivity|]. now rewrite IH.
Qed.

Lemma derive_frame (df : DataFrame) (target : string) (j : nat)
  (dt : list cell -> dtype) (f : cell -> cell) :
  derive df target j dt f
  = let dtv := dt (map f (col_values j df)) in
    match col_index target (columns df) with
    | Some k =>
        mkDataFrame
          (replace_nth k (target, dtv) (columns df))
          (map (fun r : row => (fst r, replace_nth k (f (cell_at j r)) (snd r)))
               (rows df))
    | None =>
        mkDataFrame
          (columns df ++ [(target, dtv)])
          (map (fun r : row => (fst r, (snd r ++ [f (cell_at j r)])%list))
               (rows df))
    end.
Proof.
  unfold derive, setitem, col_values. rewrite map_map. cbv zeta.
  destruct (col_index target (columns df)) as [k|].
  - now rewrite (set_cells_map k (fun r => f (cell_at j r))).
  - now rewrite (set_cells_append (fun r => f (cell_at j r))).
Qed.

Lemma derive_wf (df : DataFrame) (target : string) (j : nat)
  (dt : list cell -> dtype) (f : cell -> cell) :
  well_formed df -> well_formed (derive df target j dt f).
Proof.
  intros Hwf. rewrite derive_frame. cbv zeta. unfold well_formed in *.
  rewrite Forall_forall in Hwf.
  destruct (col_index target (columns df)) as [k|]; simpl;
    rewrite Forall_map; apply Forall_forall; intros r Hr; simpl.
  - rewrite !replace_nth_length. now apply Hwf.
  - rewrite !length_app. simpl. now rewrite (Hwf r Hr).
Qed.

Lemma col_index_app_new (name : string) (dt : dtype)
  (cols : list (string * dtype)) :
  col_index name cols = None ->
  col_index name (cols ++ [(name, dt)]) = Some (List.length cols).
Proof.
  induction cols as [|[c d] t IH]; simpl.
  - now rewrite String.eqb_refl.
  - destruct (String.eqb name c); [discriminate|].
    destruct (col_index name t); [discriminate|]. intros _.
    now rewrite IH.
Qed.

Lemma target_index_bound (target : string) (df : DataFrame) :
  (target_index target df <= List.length (columns df))%nat.
Proof.
  unfold target_index.
  destruct (col_index target (columns df)) as [k|] eqn:Hk; [|lia].
  destruct (col_index_Some _ _ Hk). lia.
Qed.

Lemma target_index_other (c target : string) (df : DataFrame) (i : nat) :
  col_index c (columns df) = Some i -> c <> target ->
  i <> target_index target df.
Proof.
  intros Hi Hne. unfold target_index.
  destruct (col_index target (columns df)) as [k|] eqn:Hk.
  - exact (@col_index_distinct c target (columns df) i k Hi Hk Hne).
  - destruct (col_index_Some _ _ Hi). lia.
Qed.

Lemma derive_target_index (df : DataFrame) (target : string) (j : nat)
  (dt : list cell -> dtype) (f : cell -> cell) :
  col_index target (columns (derive df target j dt f))
  = Some (target_index target df).
Proof.
  rewrite derive_frame. cbv zeta. unfold target_index.
  destruct (col_index target (columns df)) as [k|] eqn:Hk; simpl.
  - rewrite <- Hk. apply col_index_names. now apply replace_nth_names.
  - now apply col_index_app_new.
Qed.

Lemma derive_col_index_other (df : DataFrame) (target : string) (j : nat)
  (dt : list cell -> dtype) (f : cell -> cell) (c : string) :
  c <> target ->
  col_index c (columns (derive df target j dt f)) = col_index c (columns df).
Proof. intros Hne. unfold derive. now apply setitem_col_index_other. Qed.

Lemma derive_state_target (df : DataFrame) (target : string) (j : nat)
  (dt : list cell -> dtype) (f : cell -> cell) :
  well_formed df ->
  col_state (target_index target df) (derive df target j dt f)
  = (dt (map f (col_values j df)), map f (col_values j df)).
Proof.
  intros Hwf. rewrite derive_frame. cbv zeta. unfold target_index, col_state.
  unfold well_formed in Hwf. rewrite Forall_forall in Hwf.
  destruct (col_index target (columns df)) as [k|] eqn:Hk.
  - destruct (col_index_Some _ _ Hk) as [Hlt _]. f_equal.
    + unfold dtype_at. simpl. now rewrite nth_replace_nth_same.
    + unfold col_values. simpl. rewrite !map_map. apply map_ext_in.
      intros r Hr. unfold cell_at at 1. simpl.
      apply nth_replace_nth_same. rewrite (Hwf r Hr). exact Hlt.
  - f_equal.
    + unfold dtype_at. simpl. now rewrite nth_middle.
    + unfold col_values. simpl. rewrite !map_map. apply map_ext_in.
      intros r Hr. unfold cell_at at 1. simpl.
      rewrite <- (Hwf r Hr). apply nth_middle.
Qed.

Lemma derive_state_other (df : DataFrame) (target : string) (j : nat)
  (dt : list cell -> dtype) (f : cell -> cell) (i : nat) :
  well_formed df -> (i < List.length (columns df))%nat ->
  i <> target_index target df ->
  col_state i (derive df target j dt f) = col_state i df.
Proof.
  intros Hwf Hi Hne. rewrite derive_frame. cbv zeta.
  unfold target_index in Hne. unfold col_state.
  unfold well_formed in Hwf. rewrite Forall_forall in Hwf.
  destruct (col_index target (columns df)) as [k|] eqn:Hk.
  - f_equal.
    + unfold dtype_at. simpl. rewrite nth_replace_nth_other; auto.
    + unfold col_values. simpl. rewrite map_map. apply map_ext.
      intros r. unfold cell_at. simpl. apply nth_replace_nth_other. auto.
  - f_equal.
    + unfold dtype_at. simpl. now rewrite app_nth1.
    + unfold col_values. simpl. rewrite map_map. apply map_ext_in.
      intros r Hr. unfold cell_at. simpl. apply app_nth1.
      rewrite (Hwf r Hr). exact Hi.
Qed.

Lemma named_state_derive_target (df : DataFrame) (target : string) (j : nat)
  (dt : list cell -> dtype) (f : cell -> cell) :
  well_formed df ->
  named_state target (derive df target j dt f)
  = Some (dt (map f (col_values j df)), map f (col_values j df)).
Proof.
  intros Hwf. unfold named_state. rewrite derive_target_index.
  now rewrite derive_state_target.
Qed.

Lemma named_state_derive_other (df : DataFrame) (target : string) (j : nat)
  (dt : list cell -> dtype) (f : cell -> cell) (c : string) :
  well_formed df -> c <> target ->
  named_state c (derive df target j dt f) = named_state c df.
Proof.
  intros Hwf Hne. unfold named_state.
  rewrite (derive_col_index_other df j dt f Hne).
  destruct (col_index c (columns df)) as [i|] eqn:Hi; [|reflexivity].
  f_equal. apply derive_state_other; [assumption| |].
  - now destruct (col_index_Some _ _ Hi).
  - exact (target_index_other df Hi Hne).
Qed.

Lemma derive_same (df : DataFrame) (target : string) (j : nat)
  (dt : list cell -> dtype) (f : cell -> cell) :
  named_state target df
  = Some (dt (map f (col_values j df)), map f (col_values j df)) ->
  derive df target j dt f = df.
Proof.
  unfold named_state, col_state.
  destruct (col_index target (columns df)) as [k|] eqn:Hk; [|discriminate].
  intros [= Hdt Hvs]. rewrite derive_frame, Hk. cbv zeta.
  destruct (col_index_Some _ _ Hk) as [_ Hname].
  destruct df as [cols rs]. simpl in *. f_equal.
  - rewrite <- Hdt, <- Hname. unfold dtype_at. simpl.
    rewrite <- surjective_pairing. apply replace_nth_self.
  - unfold col_values in Hvs. simpl in Hvs. rewrite map_map in Hvs.
    rewrite <- (map_id rs) at 2. apply map_ext_in. intros r Hr.
    assert (Hc : cell_at k r = f (cell_at j r)).
    { revert r Hr. apply map_ext_in_iff. exact Hvs. }
    rewrite <- Hc. unfold cell_at. rewrite replace_nth_self.
    now destruct r.
Qed.

Lemma derive_all_fixed (j : nat) (fs : list feature) (df : DataFrame) :
  (forall s, In s fs ->
             named_state (feature_name s) df
             = Some (feature_state s (col_values j df))) ->
  derive_all j fs df = df.
Proof.
  unfold derive_all. induction fs as [|s t IH]; intros H; [reflexivity|].
  simpl. rewrite derive_same by (apply H; now left).
  apply IH. intros s' Hs'. apply H. now right.
Qed.

(** A run of assignments leaves alone the columns that are not assigned. *)
Lemma derive_all_other (j : nat) (fs : list feature) (df : DataFrame) :
  well_formed df ->
  well_formed (derive_all j fs df) /\
  forall c, ~ In c (map feature_name fs) ->
            col_index c (columns (derive_all j fs df))
            = col_index c (columns df) /\
            named_state c (derive_all j fs df) = named_state c df.
Proof.
  unfold derive_all. revert df. induction fs as [|s t IH]; intros df Hwf.
  - split; [exact Hwf|]. intros c _. split; reflexivity.
  - simpl.
    destruct (IH _ (derive_wf (feature_name s) j (feature_dtype s)
                              (feature_cell s) Hwf)) as [Hwf' Hother].
    split; [exact Hwf'|]. intros c Hc.
    assert (Hne : c <> feature_name s) by (intros ->; apply Hc; now left).
    assert (Hc' : ~ In c (map feature_name t)) by (intros Hin; apply Hc; now right).
    destruct (Hother c Hc') as [Hi Hs]. rewrite Hi, Hs. split.
    + now apply derive_col_index_other.
    + now apply named_state_derive_other.
Qed.

Lemma named_state_values (c : string) (df df' : DataFrame) (j : nat) :
  col_index c (columns df) = Some j ->
  col_index c (columns df') = Some j ->
  named_state c df' = named_state c df ->
  dtype_at j df' = dtype_at j df /\ col_values j df' = col_values j df.
Proof.
  unfold named_state, col_state. intros -> ->. intros [= H1 H2]. now split.
Qed.

(** A run of assignments from a source that is not assigned gives each
    target the value computed from the source as it was at the start. *)
Lemma derive_all_targets (src : string) (j : nat) (fs : list feature)
  (df : DataFrame) :
  well_formed df -> col_index src (columns df) = Some j ->
  ~ In src (map feature_name fs) -> NoDup (map feature_name fs) ->
  forall s, In s fs ->
            named_state (feature_name s) (derive_all j fs df)
            = Some (feature_state s (col_values j df)).
Proof.
  revert df. induction fs as [|s0 t IH]; intros df Hwf Hj Hsrc Hnd s Hs;
    [contradiction|].
  simpl in Hnd. inversion Hnd as [|x l Hnotin Hnd']; subst.
  set (df' := derive df (feature_name s0) j (feature_dtype s0) (feature_cell s0)).
  assert (Hwf' : well_formed df') by now apply derive_wf.
  assert (Hne : src <> feature_name s0) by (intros E; apply Hsrc; now left).
  assert (Hj' : col_index src (columns df') = Some j).
  { unfold df'. now rewrite derive_col_index_other. }
  assert (Hvals : col_values j df' = col_values j df).
  { apply (@named_state_values src df df' j Hj Hj').
    now apply named_state_derive_other. }
  change (derive_all j (s0 :: t) df) with (derive_all j t df').
  destruct Hs as [<-|Hs].
  - destruct (@derive_all_other j t df' Hwf') as [_ Hother].
    rewrite (proj2 (Hother _ Hnotin)).
    unfold df', feature_state. now apply named_state_derive_target.
  - rewrite <- Hvals. apply IH; try assumption.
    intros Hin. apply Hsrc. now right.
Qed.

Lemma stage_fixed (src : string) (cond : dtype -> bool) (fs : list feature)
  (df : DataFrame) :
  settled src cond fs df -> stage src cond fs df = df.
Proof.
  intros H. unfold stage.
  destruct (col_index src (columns df)) as [j|] eqn:Hj; [|reflexivity].
  destruct (cond (dtype_at j df)) eqn:Hc; [|reflexivity].
  apply derive_all_fixed. intros s Hs. now apply (H j).
Qed.

Lemma stage_other (src : string) (cond : dtype -> bool) (fs : list feature)
  (df : DataFrame) :
  well_formed df ->
  well_formed (stage src cond fs df) /\
  forall c, ~ In c (map feature_name fs) ->
            col_index c (columns (stage src cond fs df))
            = col_index c (columns df) /\
            named_state c (stage src cond fs df) = named_state c df.
Proof.
  intros Hwf. unfold stage.
  destruct (col_index src (columns df)) as [j|];
    [destruct (cond (dtype_at j df))|];
    try (split; [exact Hwf | intros c _; split; reflexivity]).
  now apply derive_all_other.
Qed.

Lemma stage_settles (src : string) (cond : dtype -> bool) (fs : list feature)
  (df : DataFrame) :
  well_formed df -> ~ In src (map feature_name fs) ->
  NoDup (map feature_name fs) ->
  forall j, col_index src (columns df) = Some j ->
            cond (dtype_at j df) = true ->
            forall s, In s fs ->
                      named_state (feature_name s) (stage src cond fs df)
                      = Some (feature_state s (col_values j df)).
Proof.
  intros Hwf Hsrc Hnd j Hj Hc s Hs. unfold stage. rewrite Hj, Hc.
  now apply (@derive_all_targets src).
Qed.

(** A frame that agrees with a settled one on the source and on the features
    is settled. *)
Lemma settled_transfer (src : string) (cond : dtype -> bool)
  (fs : list feature) (df df' : DataFrame) :
  (forall c, c = src \/ In c (map feature_name fs) ->
             col_index c (columns df') = col_index c (columns df) /\
             named_state c df' = named_state c df) ->
  settled src cond fs df -> settled src cond fs df'.
Proof.
  intros Hsame Hset j Hj Hc s Hs.
  destruct (Hsame src (or_introl eq_refl)) as [Hi Hst].
  rewrite Hj in Hi. symmetry in Hi.
  destruct (@named_state_values src df df' j Hi Hj Hst) as [Hdt Hvs].
  rewrite Hdt in Hc. rewrite Hvs.
  destruct (Hsame (feature_name s) (or_intror (in_map feature_name _ _ Hs)))
    as [_ ->].
  now apply (Hset j).
Qed.

Lemma stage_settled (src : string) (cond : dtype -> bool) (fs : list feature)
  (df : DataFrame) :
  well_formed df -> ~ In src (map feature_name fs) ->
  NoDup (map feature_name fs) ->
  settled src cond fs (stage src cond fs df).
Proof.
  intros Hwf Hsrc Hnd j Hj Hc s Hs.
  destruct (@stage_other src cond fs df Hwf) as [_ Hother].
  destruct (Hother src Hsrc) as [Hi Hst]. rewrite Hj in Hi. symmetry in Hi.
  destruct (@named_state_values src df _ j Hi Hj Hst) as [Hdt Hvs].
  rewrite Hvs. rewrite Hdt in Hc.
  now apply stage_settles.
Qed.

Lemma extract_temporal_features_stage (df : DataFrame) :
  extract_temporal_features df
  = stage "date" (fun d => dtype_eqb d Datetime64) temporal_features df.
Proof. reflexivity. Qed.

Lemma calculate_headline_metrics_stage (df : DataFrame) :
  calculate_headline_metrics df
  = (stage "headline" (fun d => dtype_eqb d Object) headline_features df,
     match named_state "headline" df with
     | Some (Object, _) | None => Ok tt
     | Some _ => Raise AttributeError
     end).
Proof.
  unfold calculate_headline_metrics, stage, named_state, col_state.
  destruct (col_index "headline" (columns df)) as [j|]; [|reflexivity].
  destruct (dtype_at j df); reflexivity.
Qed.

Lemma temporal_names_fresh :
  ~ In "date" (map feature_name temporal_features) /\
  NoDup (map feature_name temporal_features).
Proof.
  split.
  - simpl. intuition discriminate.
  - repeat constructor; simpl; intuition discriminate.
Qed.

Lemma headline_names_fresh :
  ~ In "headline" (map feature_name headline_features) /\
  NoDup (map feature_name headline_features).
Proof.
  split.
  - simpl. intuition discriminate.
  - repeat constructor; simpl; intuition discriminate.
Qed.

Lemma temporal_not_headline (c : string) :
  c = "date" \/ In c (map feature_name temporal_features) ->
  ~ In c (map feature_name headline_features).
Proof.
  simpl. intros [->|[<-|[<-|[<-|[<-|[<-|[<-|[]]]]]]]]; intuition discriminate.
Qed.

(** The frame after the two blocks: both blocks are settled in it, and the
    columns that are not features are those of the input. *)
Lemma feature_blocks (df : DataFrame) :
  well_formed df ->
  let out := fst (calculate_headline_metrics (extract_temporal_features df)) in
  well_formed out /\
  settled "date" (fun d => dtype_eqb d Datetime64) temporal_features out /\
  settled "headline" (fun d => dtype_eqb d Object) headline_features out /\
  (forall c, ~ In c (map feature_name headline_features) ->
             col_index c (columns out)
             = col_index c (columns (extract_temporal_features df)) /\
             named_state c out = named_state c (extract_temporal_features df)) /\
  (forall c, ~ In c (map feature_name temporal_features) ->
             col_index c (columns (extract_temporal_features df))
             = col_index c (columns df) /\
             named_state c (extract_temporal_features df) = named_state c df).
Proof.
  intros Hwf out. unfold out.
  rewrite calculate_headline_metrics_stage, extract_temporal_features_stage.
  simpl fst.
  set (E := stage "date" (fun d => dtype_eqb d Datetime64) temporal_features df).
  destruct (@stage_other "date" (fun d => dtype_eqb d Datetime64)
              temporal_features df Hwf) as [HwfE HotherE]. fold E in HwfE, HotherE.
  destruct (@stage_other "headline" (fun d => dtype_eqb d Object)
              headline_features E HwfE) as [HwfH HotherH].
  split; [exact HwfH|]. split; [|split; [|split; assumption]].
  - apply (@settled_transfer _ _ _ E).
    + intros c Hc. apply HotherH. now apply temporal_not_headline.
    + apply stage_settled; [exact Hwf | apply temporal_names_fresh..].
  - apply stage_settled; [exact HwfE | apply headline_names_fresh..].
Qed.





Section FeatureBuilder.

Context {env : Env}.

Lemma preprocess_data_unfold (df : DataFrame) :
  preprocess_data df
  = let d := fst (calculate_headline_metrics (extract_temporal_features df)) in
    (d, match snd (calculate_headline_metrics (extract_temporal_features df)) with
        | Raise e => Raise e
        | Ok _ => _ <- date_range d ;; Ok tt
        end).
Proof.
  unfold preprocess_data.
  destruct (calculate_headline_metrics (extract_temporal_features df))
    as [d [u|e]]; reflexivity.
Qed.

(** X15. A second run of the feature builder changes nothing: same frame,
    same outcome. *)
Theorem preprocess_data_idempotent (df : DataFrame) :
  well_formed df ->
  preprocess_data (fst (preprocess_data df)) = preprocess_data df.
Proof.
  intros Hwf.
  destruct (feature_blocks Hwf) as [HwfH [Hdate [Hhead [HotherH _]]]].
  rewrite (preprocess_data_unfold df). cbv zeta. simpl fst.
  set (E := extract_temporal_features df) in *.
  set (H := fst (calculate_headline_metrics E)) in *.
  rewrite (preprocess_data_unfold H). cbv zeta.
  assert (HE : extract_temporal_features H = H).
  { rewrite extract_temporal_features_stage. now apply stage_fixed. }
  rewrite HE.
  assert (HH : calculate_headline_metrics H
               = (H, snd (calculate_headline_metrics E))).
  { rewrite (calculate_headline_metrics_stage H).
    rewrite (stage_fixed Hhead). f_equal.
    rewrite (calculate_headline_metrics_stage E). simpl snd.
    destruct (HotherH "headline" (proj1 headline_names_fresh)) as [_ ->].
    reflexivity. }
  rewrite HH. reflexivity.
Qed.



End FeatureBuilder.

Lemma feature_example_wf : well_formed feature_example.
Proof. repeat constructor. Qed.

Lemma preprocess_data_idempotent_witness :
  well_formed feature_example /\
  @preprocess_data sample_env (fst (@preprocess_data sample_env feature_example))
  = @preprocess_data sample_env feature_example.
Proof.
  split; [exact feature_example_wf|].
  exact (@preprocess_data_idempotent sample_env feature_example
           feature_example_wf).
Defined.



(** ** Statistics: degenerate inputs, range and scale *)




Lemma np_sum_all_zero (l : list Q) : Forall (fun x => x == 0) l -> np_sum l == 0.
Proof.
  induction 1 as [|x t Hx Ht IH]; simpl; [reflexivity|]. rewrite Hx, IH. lra.
Qed.

Lemma np_mul_all_zero (idx l : list Q) :
  Forall (fun x => x == 0) l -> Forall (fun x => x == 0) (np_mul idx l).
Proof.
  intros H. revert idx. induction H as [|x t Hx Ht IH]; intros [|i idx]; simpl;
    constructor.
  - simpl. rewrite Hx. ring.
  - apply IH.
Qed.

(** X18. Degenerate inputs of the Gini coefficient: the empty array raises
    [ZeroDivisionError], and an array of zeros gives NaN (0/0). *)
Theorem gini_coefficient_degenerate :
  gini_coefficient [] = Raise ZeroDivisionError /\
  forall values : list Q,
    values <> [] -> Forall (fun x => x == 0) values ->
    gini_coefficient values = Ok NaN.
Proof.
  split; [reflexivity|].
  intros values Hne Hz. unfold gini_coefficient.
  destruct values as [|v t]; [congruence|].
  change (Nat.eqb (List.length (v :: t)) 0) with false. cbv iota.
  assert (Hs : Forall (fun x => x == 0) (np_sort (v :: t))).
  { eapply Permutation_Forall; [symmetry; apply np_sort_perm | exact Hz]. }
  unfold true_divide.
  assert (Hden : Qeq_bool (Qnat (List.length (v :: t)) * np_sum (np_sort (v :: t))) 0 = true).
  { apply Qeq_bool_iff. rewrite (np_sum_all_zero Hs). ring. }
  assert (Hnum : Qeq_bool (2 * np_sum (np_mul (np_arange 1 (List.length (v :: t) + 1))
                                             (np_sort (v :: t)))) 0 = true).
  { apply Qeq_bool_iff. rewrite (np_sum_all_zero (np_mul_all_zero _ Hs)). ring. }
  now rewrite Hden, Hnum.
Qed.

Lemma gini_coefficient_degenerate_witness :
  [0; 0; 0] <> [] /\ Forall (fun x => x == 0) [0; 0; 0] /\
  gini_coefficient [0; 0; 0] = Ok NaN.
Proof.
  assert (H1 : [0; 0; 0] <> []) by discriminate.
  assert (H2 : Forall (fun x => x == 0) [0; 0; 0]) by (repeat constructor).
  split; [exact H1|]. split; [exact H2|].
  exact (proj2 gini_coefficient_degenerate [0; 0; 0] H1 H2).
Defined.






















(** ** Email domain extraction *)

Lemma match_here_rep_nil (cls : ascii -> bool) (min : nat) (rest : list regex_item) :
  match_here (Rep cls min :: rest) []
  = match min with O => match_here rest [] | S _ => None end.
Proof. reflexivity. Qed.

Lemma match_here_rep_cons (cls : ascii -> bool) (min : nat)
  (rest : list regex_item) (c : ascii) (t : list ascii) :
  match_here (Rep cls min :: rest) (c :: t)
  = let stop := match min with
                | O => match_here rest (c :: t)
                | S _ => None
                end in
    if cls c then
      match match_here (Rep cls (pred min) :: rest) t with
      | Some n => Some (S n)
      | None => stop
      end
    else stop.
Proof. reflexivity. Qed.

Lemma match_here_sound (items : list regex_item) (s : list ascii) (n : nat) :
  match_here items s = Some n ->
  (n <= List.length s)%nat /\ matches items (firstn n s).
Proof.
  revert s n. induction items as [|[c|cls min] rest IH]; intros s n.
  - simpl. intros [= <-]. split; [lia | reflexivity].
  - simpl. destruct s as [|c' t]; [discriminate|].
    destruct (Ascii.eqb_spec c c') as [<-|_]; [|discriminate].
    destruct (match_here rest t) as [k|] eqn:E; [|discriminate].
    simpl. intros [= <-]. destruct (IH t k E) as [Hk Hm].
    split; [simpl; lia|]. simpl. exists (firstn k t). auto.
  - assert (Hstop : forall s n min,
              match min with O => match_here rest s | S _ => None end = Some n ->
              (n <= List.length s)%nat /\ matches (Rep cls min :: rest) (firstn n s)).
    { intros s0 n0 [|m] H; [|discriminate].
      destruct (IH s0 n0 H) as [Hn Hm]. split; [exact Hn|].
      simpl. exists [], (firstn n0 s0). repeat split; auto. }
    revert n min. induction s as [|c t IHs]; intros n min.
    + rewrite match_here_rep_nil. apply Hstop.
    + rewrite match_here_rep_cons. cbv zeta.
      destruct (cls c) eqn:Ec; [|apply Hstop].
      destruct (match_here (Rep cls (pred min) :: rest) t) as [k|] eqn:E; [|apply Hstop].
      intros [= <-]. destruct (IHs k (pred min) E) as [Hk Hm].
      split; [simpl; lia|].
      simpl in Hm. destruct Hm as [a [b [Hab [Ha [Hmin Hb]]]]].
      simpl. exists (c :: a), b. rewrite Hab. repeat split; auto.
      simpl. lia.
Qed.

Lemma re_search_sound (items : list regex_item) (s m : list ascii) :
  re_search items s = Some m ->
  matches items m /\ exists pre post, s = (pre ++ m ++ post)%list.
Proof.
  induction s as [|c t IH]; simpl.
  - destruct (match_here items []) as [n|] eqn:E; [|discriminate].
    intros [= <-]. destruct (match_here_sound _ _ E) as [_ Hm].
    split; [exact Hm|]. exists [], []. now destruct n.
  - destruct (match_here items (c :: t)) as [n|] eqn:E.
    + intros [= <-]. destruct (match_here_sound _ _ E) as [_ Hm].
      split; [exact Hm|]. exists [], (skipn n (c :: t)).
      now rewrite firstn_skipn.
    + intros H. destruct (IH H) as [Hm [pre [post Hs]]].
      split; [exact Hm|]. exists (c :: pre), post. simpl. now rewrite Hs.
Qed.

Lemma split_on_absent (sep : ascii) (s : list ascii) :
  ~ In sep s -> split_on sep s = [s].
Proof.
  induction s as [|c t IH]; intros H; [reflexivity|]. simpl.
  destruct (Ascii.eqb_spec c sep) as [->|_]; [exfalso; apply H; now left|].
  rewrite IH; [reflexivity | intros Hin; apply H; now right].
Qed.

Lemma split_on_first (sep : ascii) (a r : list ascii) :
  ~ In sep a -> split_on sep (a ++ sep :: r) = a :: split_on sep r.
Proof.
  induction a as [|c t IH]; intros H; simpl.
  - now rewrite Ascii.eqb_refl.
  - destruct (Ascii.eqb_spec c sep) as [->|_]; [exfalso; apply H; now left|].
    rewrite IH; [reflexivity | intros Hin; apply H; now right].
Qed.

Lemma class_excludes (cls : ascii -> bool) (sep : ascii) (w : list ascii) :
  cls sep = false -> Forall (fun c => cls c = true) w -> ~ In sep w.
Proof.
  intros Hsep Hall Hin. rewrite Forall_forall in Hall.
  specialize (Hall sep Hin). congruence.
Qed.

Lemma is_letter_domain (c : ascii) : is_letter c = true -> is_domain c = true.
Proof. unfold is_domain. intros ->. reflexivity. Qed.

(** The shape of an address that the pattern matches, and what the function
    then returns. *)
Lemma extract_email_domain_cases (publisher : string) :
  (re_search email_pattern (list_ascii_of_string publisher) = None /\
   extract_email_domain publisher = ReturnsNone) \/
  exists pre local host tld post,
    list_ascii_of_string publisher
    = (pre ++ local ++ "@"%char :: host ++ "."%char :: tld ++ post)%list /\
    local <> [] /\ Forall (fun c => is_local c = true) local /\
    host <> [] /\ Forall (fun c => is_domain c = true) host /\
    (2 <= List.length tld)%nat /\ Forall (fun c => is_letter c = true) tld /\
    extract_email_domain publisher
    = ReturnsDomain (string_of_list_ascii (host ++ "."%char :: tld)).
Proof.
  unfold extract_email_domain.
  destruct (re_search email_pattern (list_ascii_of_string publisher)) as [m|] eqn:E;
    [right | now left].
  destruct (re_search_sound _ _ E) as [Hm [pre [post Hs]]].
  simpl in Hm.
  destruct Hm as [a [b [Em [Ha [Hla Hm]]]]]. subst m.
  destruct Hm as [w1 [E1 Hm]]. subst b.
  destruct Hm as [d [b2 [E2 [Hd [Hld Hm]]]]]. subst w1.
  destruct Hm as [w2 [E3 Hm]]. subst b2.
  destruct Hm as [t [e [E4 [Ht [Hlt Hm]]]]]. subst w2 e.
  rewrite app_nil_r in *.
  exists pre, a, d, t, post.
  split; [rewrite Hs; now rewrite <- !app_assoc; simpl; rewrite <- !app_assoc|].
  split; [destruct a; [simpl in Hla; lia | discriminate]|].
  split; [exact Ha|].
  split; [destruct d; [simpl in Hld; lia | discriminate]|].
  split; [exact Hd|]. split; [exact Hlt|]. split; [exact Ht|].
  assert (Hna : ~ In "@"%char a) by (apply (class_excludes is_local); [reflexivity | exact Ha]).
  assert (Hnr : ~ In "@"%char (d ++ "."%char :: t)).
  { intros Hin. apply in_app_iff in Hin. destruct Hin as [Hin|[Hin|Hin]].
    - revert Hin. apply (class_excludes is_domain); [reflexivity | exact Hd].
    - discriminate.
    - revert Hin. apply (class_excludes is_letter); [reflexivity | exact Ht]. }
  rewrite (@split_on_first _ a _ Hna), (@split_on_absent _ _ Hnr). reflexivity.
Qed.

(** X23. The domain extraction never raises, and what it returns is the
    domain of an address that occurs in the input. *)
Theorem extract_email_domain_result (publisher : string) :
  match extract_email_domain publisher with
  | RaisesIndexError => False
  | ReturnsNone => re_search email_pattern (list_ascii_of_string publisher) = None
  | ReturnsDomain domain =>
      exists pre local host tld post,
        list_ascii_of_string domain = (host ++ "."%char :: tld)%list /\
        list_ascii_of_string publisher
        = (pre ++ local ++ "@"%char :: list_ascii_of_string domain ++ post)%list /\
        local <> [] /\ Forall (fun c => is_local c = true) local /\
        host <> [] /\ Forall (fun c => is_domain c = true) host /\
        (2 <= List.length tld)%nat /\ Forall (fun c => is_letter c = true) tld /\
        ~ In "@"%char (list_ascii_of_string domain)
  end.
Proof.
  destruct (extract_email_domain_cases publisher)
    as [[Hnone ->]|[pre [local [host [tld [post [Hs [Hl [Hlc [Hh [Hhc [Ht [Htc ->]]]]]]]]]]]]].
  - exact Hnone.
  - exists pre, local, host, tld, post.
    rewrite list_ascii_of_string_of_list_ascii.
    split; [reflexivity|].
    split; [rewrite Hs; now rewrite <- app_assoc|].
    repeat (split; [assumption|]).
    intros Hin. apply in_app_iff in Hin. destruct Hin as [Hin|[Hin|Hin]].
    + revert Hin. apply (class_excludes is_domain); [reflexivity | exact Hhc].
    + discriminate.
    + revert Hin. apply (class_excludes is_letter); [reflexivity | exact Htc].
Qed.

(** X24. A publisher name without an at sign has no domain: the function
    returns [None]. *)
Theorem extract_email_domain_no_at (publisher : string) :
  ~ In "@"%char (list_ascii_of_string publisher) ->
  extract_email_domain publisher = ReturnsNone.
Proof.
  intros Hno.
  destruct (extract_email_domain_cases publisher)
    as [[_ H]|[pre [local [host [tld [post [Hs _]]]]]]]; [exact H|].
  exfalso. apply Hno. rewrite Hs.
  apply in_app_iff. right. apply in_app_iff. right. now left.
Qed.

Lemma rep_take_all (cls : ascii -> bool) (rest : list regex_item)
  (w r : list ascii) (min n : nat) :
  Forall (fun c => cls c = true) w -> stops_class cls r ->
  (min <= List.length w)%nat -> match_here rest r = Some n ->
  match_here (Rep cls min :: rest) (w ++ r) = Some (List.length w + n)%nat.
Proof.
  intros Hw Hr. revert min. induction Hw as [|c w Hc Hw IH]; intros min Hmin Hn.
  - simpl in Hmin. assert (min = 0%nat) by lia. subst min. simpl app.
    destruct r as [|c t].
    + now rewrite match_here_rep_nil.
    + rewrite match_here_rep_cons. simpl in Hr. now rewrite Hr.
  - simpl app. rewrite match_here_rep_cons, Hc. cbv zeta.
    rewrite (IH (pred min)); [reflexivity | simpl in Hmin; lia | exact Hn].
Qed.

Lemma rep_all_stops_fail (cls : ascii -> bool) (rest : list regex_item)
  (w r : list ascii) (min : nat) :
  Forall (fun c => cls c = true) w -> stops_class cls r ->
  (forall k, (min <= k)%nat -> (k <= List.length w)%nat ->
             match_here rest (skipn k w ++ r) = None) ->
  match_here (Rep cls min :: rest) (w ++ r) = None.
Proof.
  intros Hw Hr. revert min. induction Hw as [|c w Hc Hw IH]; intros min Hfail.
  - simpl app. destruct r as [|c t].
    + rewrite match_here_rep_nil. destruct min; [|reflexivity].
      apply (Hfail 0%nat); simpl; lia.
    + rewrite match_here_rep_cons. simpl in Hr. rewrite Hr. cbv zeta.
      destruct min; [|reflexivity]. apply (Hfail 0%nat); simpl; lia.
  - simpl app. rewrite match_here_rep_cons, Hc. cbv zeta.
    rewrite (IH (pred min)).
    + destruct min; [|reflexivity]. apply (Hfail 0%nat); simpl; lia.
    + intros k Hk Hle. apply (Hfail (S k)); simpl; lia.
Qed.

Lemma rep_backtrack (cls : ascii -> bool) (rest : list regex_item)
  (w1 w2 r : list ascii) (min n : nat) :
  Forall (fun c => cls c = true) w1 -> Forall (fun c => cls c = true) w2 ->
  stops_class cls r -> (min <= List.length w1)%nat ->
  match_here rest (w2 ++ r) = Some n ->
  (forall k, (1 <= k)%nat -> (k <= List.length w2)%nat ->
             match_here rest (skipn k w2 ++ r) = None) ->
  match_here (Rep cls min :: rest) (w1 ++ w2 ++ r) = Some (List.length w1 + n)%nat.
Proof.
  intros Hw1 Hw2 Hr. revert min.
  induction Hw1 as [|c w1 Hc Hw1 IH]; intros min Hmin Hn Hfail.
  - simpl in Hmin. assert (min = 0%nat) by lia. subst min. simpl app.
    destruct Hw2 as [|c w2 Hc Hw2].
    + simpl app in *. destruct r as [|c t].
      * now rewrite match_here_rep_nil.
      * rewrite match_here_rep_cons. simpl in Hr. now rewrite Hr.
    + simpl app in *. rewrite match_here_rep_cons, Hc. cbv zeta.
      change (pred 0) with 0%nat.
      rewrite (@rep_all_stops_fail cls rest w2 r 0 Hw2 Hr); [exact Hn|].
      intros k _ Hk. apply (Hfail (S k)); simpl; lia.
  - simpl app. rewrite match_here_rep_cons, Hc. cbv zeta.
    rewrite (IH (pred min)); [reflexivity | simpl in Hmin; lia | exact Hn | exact Hfail].
Qed.

Lemma In_skipn {A : Type} (k : nat) (w : list A) (x : A) :
  In x (skipn k w) -> In x w.
Proof.
  revert w. induction k as [|k IH]; intros w H; [exact H|].
  destruct w as [|y w]; [exact H|]. right. now apply IH.
Qed.

Lemma match_here_address (local host tld post : list ascii) :
  local <> [] -> Forall (fun c => is_local c = true) local ->
  host <> [] -> Forall (fun c => is_domain c = true) host ->
  (2 <= List.length tld)%nat -> Forall (fun c => is_letter c = true) tld ->
  stops_class is_domain post ->
  match_here email_pattern
    (local ++ "@"%char :: host ++ ("."%char :: tld) ++ post)
  = Some (List.length (local ++ "@"%char :: host ++ "."%char :: tld)).
Proof.
  intros Hl Hlc Hh Hhc Ht Htc Hpost.
  assert (Hpost_letter : stops_class is_letter post).
  { destruct post as [|c p]; [exact I|]. simpl in *.
    destruct (is_letter c) eqn:E; [|reflexivity].
    apply is_letter_domain in E. congruence. }
  assert (Htld : match_here [Rep is_letter 2] (tld ++ post)
                 = Some (List.length tld + 0)%nat).
  { apply rep_take_all; try assumption. destruct post; reflexivity. }
  assert (Hdot : match_here [Lit "."; Rep is_letter 2] (("."%char :: tld) ++ post)
                 = Some (S (List.length tld + 0))).
  { simpl app.
    change (match_here [Lit "."; Rep is_letter 2] ("."%char :: tld ++ post))
      with (option_map S (match_here [Rep is_letter 2] (tld ++ post))).
    now rewrite Htld. }
  assert (Hhost : match_here [Rep is_domain 1; Lit "."; Rep is_letter 2]
                             (host ++ ("."%char :: tld) ++ post)
                  = Some (List.length host + S (List.length tld + 0))%nat).
  { apply rep_backtrack; try assumption.
    - constructor; [reflexivity|].
      eapply Forall_impl; [|exact Htc]. intros c. apply is_letter_domain.
    - destruct host; [congruence | simpl; lia].
    - intros k Hk1 Hk2. destruct k as [|k]; [lia|]. simpl skipn.
      destruct (skipn k tld ++ post)%list as [|c rest] eqn:E; [reflexivity|].
      assert (Hc : c <> "."%char).
      { destruct (skipn k tld) as [|c' t'] eqn:Es.
        - simpl in E. subst post. simpl in Hpost. intros ->. discriminate.
        - simpl in E. injection E as -> _.
          assert (Hin : In c tld).
          { apply (@In_skipn _ k). rewrite Es. now left. }
          rewrite Forall_forall in Htc. specialize (Htc _ Hin).
          intros ->. discriminate. }
      change (match_here [Lit "."; Rep is_letter 2] (c :: rest))
        with (if Ascii.eqb "." c
              then option_map S (match_here [Rep is_letter 2] rest) else None).
      destruct (Ascii.eqb_spec "."%char c); [congruence | reflexivity]. }
  assert (Hat : match_here [Lit "@"; Rep is_domain 1; Lit "."; Rep is_letter 2]
                  ("@"%char :: host ++ ("."%char :: tld) ++ post)
                = Some (S (List.length host + S (List.length tld + 0)))).
  { change (match_here [Lit "@"; Rep is_domain 1; Lit "."; Rep is_letter 2]
              ("@"%char :: host ++ ("."%char :: tld) ++ post))
      with (option_map S (match_here [Rep is_domain 1; Lit "."; Rep is_letter 2]
                            (host ++ ("."%char :: tld) ++ post))).
    now rewrite Hhost. }
  unfold email_pattern.
  erewrite rep_take_all; [| exact Hlc | reflexivity | | exact Hat].
  - f_equal. rewrite !length_app. simpl. rewrite !length_app. simpl. lia.
  - destruct local; [congruence | simpl; lia].
Qed.

(** X25. A text that starts with an address, followed by nothing or by a
    character that cannot be part of a domain, gives the domain of that
    address: everything after the at sign, up to the end of the top-level
    domain. *)
Theorem extract_email_domain_address (publisher : string)
  (local host tld post : list ascii) :
  list_ascii_of_string publisher
  = (local ++ "@"%char :: host ++ ("."%char :: tld) ++ post)%list ->
  local <> [] -> Forall (fun c => is_local c = true) local ->
  host <> [] -> Forall (fun c => is_domain c = true) host ->
  (2 <= List.length tld)%nat -> Forall (fun c => is_letter c = true) tld ->
  stops_class is_domain post ->
  extract_email_domain publisher
  = ReturnsDomain (string_of_list_ascii (host ++ "."%char :: tld)).
Proof.
  intros Hs Hl Hlc Hh Hhc Ht Htc Hpost.
  unfold extract_email_domain. rewrite Hs.
  assert (Hsearch : re_search email_pattern
                      (local ++ "@"%char :: host ++ ("."%char :: tld) ++ post)
                    = Some (local ++ "@"%char :: host ++ "."%char :: tld)%list).
  { destruct local as [|c l]; [congruence|].
    pose proof (@match_here_address (c :: l) host tld post Hl Hlc Hh Hhc Ht Htc Hpost) as Hm.
    simpl app in *. unfold re_search; fold re_search. rewrite Hm. f_equal.
    replace (c :: l ++ "@"%char :: host ++ "."%char :: tld ++ post)%list
      with ((c :: l ++ "@"%char :: host ++ "."%char :: tld) ++ post)%list.
    - now rewrite firstn_app, firstn_all, Nat.sub_diag, app_nil_r.
    - simpl. f_equal. rewrite <- !app_assoc. simpl. f_equal. f_equal.
      rewrite <- app_assoc. reflexivity. }
  rewrite Hsearch.
  assert (Hna : ~ In "@"%char local).
  { apply (@class_excludes is_local); [reflexivity | exact Hlc]. }
  assert (Hnr : ~ In "@"%char (host ++ "."%char :: tld)).
  { apply (@class_excludes is_domain); [reflexivity|].
    apply Forall_app. split; [exact Hhc|]. constructor; [reflexivity|].
    eapply Forall_impl; [|exact Htc]. intros c. apply is_letter_domain. }
  rewrite (@split_on_first _ local _ Hna), (@split_on_absent _ _ Hnr).
  reflexivity.
Qed.

Lemma extract_email_domain_no_at_witness :
  extract_email_domain "Reuters Staff" = ReturnsNone.
Proof.
  apply extract_email_domain_no_at. vm_compute. intuition discriminate.
Defined.

Lemma extract_email_domain_address_witness :
  extract_email_domain "jane.doe@mail.example.com (desk)"
  = ReturnsDomain "mail.example.com".
Proof.
  assert (H1 : list_ascii_of_string "jane.doe" <> []) by discriminate.
  assert (H2 : Forall (fun c => is_local c = true)
                      (list_ascii_of_string "jane.doe"))
    by (repeat constructor).
  assert (H3 : list_ascii_of_string "mail.example" <> []) by discriminate.
  assert (H4 : Forall (fun c => is_domain c = true)
                      (list_ascii_of_string "mail.example"))
    by (repeat constructor).
  assert (H5 : (2 <= List.length (list_ascii_of_string "com"))%nat)
    by (simpl; lia).
  assert (H6 : Forall (fun c => is_letter c = true)
                      (list_ascii_of_string "com"))
    by (repeat constructor).
  assert (H7 : stops_class is_domain (list_ascii_of_string " (desk)"))
    by reflexivity.
  exact (@extract_email_domain_address "jane.doe@mail.example.com (desk)"
           (list_ascii_of_string "jane.doe")
           (list_ascii_of_string "mail.example")
           (list_ascii_of_string "com")
           (list_ascii_of_string " (desk)") eq_refl H1 H2 H3 H4 H5 H6 H7).
Defined.

(** ** Persistence *)

Lemma up_to_last_absent (sep : ascii) (s : list ascii) :
  ~ In sep s -> up_to_last sep s = [].
Proof.
  induction s as [|c t IH]; intros H; [reflexivity|]. simpl.
  rewrite IH by (intros Hin; apply H; now right).
  destruct (Ascii.eqb_spec c sep) as [->|_]; [|reflexivity].
  exfalso. apply H. now left.
Qed.

Lemma up_to_last_split (sep : ascii) (d name : list ascii) :
  ~ In sep name -> up_to_last sep (d ++ sep :: name) = (d ++ [sep])%list.
Proof.
  intros H. induction d as [|c t IH]; simpl.
  - now rewrite (@up_to_last_absent sep name H), Ascii.eqb_refl.
  - rewrite IH. destruct t; reflexivity.
Qed.

Lemma rstrip_app_sep (sep : ascii) (d : list ascii) :
  rstrip sep (d ++ [sep]) = rstrip sep d.
Proof.
  induction d as [|c t IH]; simpl.
  - now rewrite Ascii.eqb_refl.
  - now rewrite IH.
Qed.

Lemma rstrip_fixed (sep : ascii) (d : list ascii) :
  last d sep <> sep -> rstrip sep d = d.
Proof.
  induction d as [|c t IH]; intros H; [now elim H|].
  destruct t as [|c' t'].
  - simpl in *. destruct (Ascii.eqb_spec c sep); [contradiction | reflexivity].
  - change (last (c :: c' :: t') sep) with (last (c' :: t') sep) in H.
    change (rstrip sep (c :: c' :: t'))
      with (match rstrip sep (c' :: t') with
            | [] => if Ascii.eqb c sep then [] else [c]
            | r => c :: r
            end).
    now rewrite (IH H).
Qed.

Lemma not_all_sep (sep : ascii) (d rest : list ascii) :
  last d sep <> sep -> forallb (Ascii.eqb sep) (d ++ rest) = false.
Proof.
  induction d as [|c t IH]; intros H; [now elim H|].
  simpl. destruct (Ascii.eqb_spec sep c) as [<-|_]; [|reflexivity]. simpl.
  apply IH. destruct t; [now elim H | exact H].
Qed.

Lemma dirname_bare (p : string) :
  ~ In "/"%char (list_ascii_of_string p) -> dirname p = EmptyString.
Proof.
  intros H. unfold dirname. now rewrite (@up_to_last_absent _ _ H).
Qed.

Lemma dirname_parent (dir name : list ascii) :
  last dir "/"%char <> "/"%char -> ~ In "/"%char name ->
  dirname (string_of_list_ascii (dir ++ "/"%char :: name))
  = string_of_list_ascii dir.
Proof.
  intros Hd Hn. unfold dirname.
  rewrite list_ascii_of_string_of_list_ascii, (@up_to_last_split _ dir name Hn).
  rewrite (@not_all_sep _ dir _ Hd), rstrip_app_sep, (@rstrip_fixed _ dir Hd). reflexivity.
Qed.

Section PersistenceProperties.

Context {fs : Storage}.

(** X26. A path without a directory part cannot be saved to: the directory
    to make is the empty name, [os.makedirs] refuses it, and the call raises
    [FileNotFoundError] before anything is written. *)
Theorem save_processed_data_bare_name (df : DataFrame) (file_path : string)
  (st : store) :
  (forall s, os_makedirs EmptyString true s = (s, Raise FileNotFoundError)) ->
  ~ In "/"%char (list_ascii_of_string file_path) ->
  save_processed_data df file_path st = (st, Raise FileNotFoundError).
Proof.
  intros Hempty Hbare. unfold save_processed_data.
  now rewrite (@dirname_bare file_path Hbare), Hempty.
Qed.

(** X27. The directory that is made is the parent of the file, and the frame
    is written only once that directory is there. *)
Theorem save_processed_data_parent (df : DataFrame) (dir name : list ascii)
  (st : store) :
  last dir "/"%char <> "/"%char -> ~ In "/"%char name ->
  let file_path := string_of_list_ascii (dir ++ "/"%char :: name) in
  save_processed_data df file_path st
  = match os_makedirs (string_of_list_ascii dir) true st with
    | (st', Ok _) => to_pickle df file_path st'
    | (st', Raise e) => (st', Raise e)
    end.
Proof.
  intros Hd Hn file_path. unfold save_processed_data, file_path.
  rewrite (@dirname_parent dir name Hd Hn).
  destruct (os_makedirs (string_of_list_ascii dir) true st) as [st' [[]|e]];
    reflexivity.
Qed.

(** X28. A frame that was saved is the frame that is loaded from the same
    path, in a store where a pickle that was written can be read. *)
Theorem save_then_load_processed_data (df : DataFrame) (file_path : string)
  (st st' : store) :
  (forall d p s s', to_pickle d p s = (s', Ok tt) -> read_pickle p s' = Ok d) ->
  save_processed_data df file_path st = (st', Ok tt) ->
  load_processed_data file_path st' = Ok df.
Proof.
  intros Hlaw Hsave. unfold save_processed_data in Hsave.
  destruct (os_makedirs (dirname file_path) true st) as [s [[]|e]];
    [|discriminate].
  unfold load_processed_data. now rewrite (Hlaw _ _ _ _ Hsave).
Qed.

End PersistenceProperties.

Lemma save_processed_data_bare_name_witness :
  @save_processed_data sample_storage cleaning_example "df_processed.pkl" ([], [])
  = (([], []), Raise FileNotFoundError).
Proof.
  apply (@save_processed_data_bare_name sample_storage).
  - intros s. reflexivity.
  - vm_compute. intuition discriminate.
Defined.

Lemma save_processed_data_parent_witness :
  @save_processed_data sample_storage cleaning_example
    "../data/processed/df_processed.pkl" ([], [])
  = ((["../data/processed"],
      [("../data/processed/df_processed.pkl", cleaning_example)]),
     Ok tt).
Proof.
  assert (Hd : last (list_ascii_of_string "../data/processed") "/"%char
               <> "/"%char) by (vm_compute; discriminate).
  assert (Hn : ~ In "/"%char (list_ascii_of_string "df_processed.pkl"))
    by (vm_compute; intuition discriminate).
  exact (@save_processed_data_parent sample_storage cleaning_example
           _ _ ([], []) Hd Hn).
Defined.

Lemma save_then_load_processed_data_witness :
  @load_processed_data sample_storage "out/df.pkl"
    (fst (@save_processed_data sample_storage cleaning_example "out/df.pkl"
            ([], [])))
  = Ok cleaning_example.
Proof.
  apply (@save_then_load_processed_data sample_storage cleaning_example
           "out/df.pkl" ([], [])).
  - intros d p s s' [= <-]. simpl. now rewrite String.eqb_refl.
  - reflexivity.
Defined.

(** ** The cleaner and the checker together *)

Lemma filter_none {A : Type} (f : A -> bool) (l : list A) :
  (forall x, In x l -> f x = false) -> filter f l = [].
Proof.
  induction l as [|x t IH]; intros H; simpl; [reflexivity|].
  rewrite (H x (or_introl eq_refl)). apply IH. intros y Hy. apply H. now right.
Qed.

Lemma missing_report_none (df : DataFrame) :
  (forall j, (j < List.length (columns df))%nat ->
             null_count (col_values j df) = 0%nat) ->
  missing_report df = None.
Proof.
  intros H. rewrite missing_report_table. cbv zeta.
  rewrite filter_none; [reflexivity|].
  intros e He. apply in_map_iff in He. destruct He as [j [<- Hj]].
  apply in_seq in Hj. unfold missing_entry. simpl.
  rewrite H by lia. reflexivity.
Qed.

Lemma to_datetime_times {env : Env} (cs : list cell) :
  Forall is_time cs ->
  null_count (to_datetime cs) = 0%nat /\
  List.length (filter notna (to_datetime cs)) = List.length cs.
Proof.
  unfold null_count, to_datetime.
  induction 1 as [|c t Hc Ht [IH1 IH2]]; [split; reflexivity|].
  destruct c; try contradiction. simpl. rewrite IH1, IH2. split; reflexivity.
Qed.

Section CleanedFrame.

Context {env : Env}.

Lemma clean_data_drop_rows (df : DataFrame) (rd fd : bool) (r : row) :
  In r (rows (clean_data df rd "drop" fd)) -> existsb isnull (snd r) = false.
Proof.
  intros Hr. unfold clean_data in Hr.
  apply (proj2 (remove_duplicate_rows_sub rd _)) in Hr.
  change (handle_missing_values "drop" (handle_dates "drop" fd df))
    with (dropna (handle_dates "drop" fd df)) in Hr.
  now apply dropna_rows in Hr.
Qed.

Lemma clean_data_wf (df : DataFrame) (rd : bool) (hm : string) (fd : bool) :
  well_formed df -> well_formed (clean_data df rd hm fd).
Proof.
  intros Hwf. unfold clean_data.
  eapply sub_frame_wf; [apply remove_duplicate_rows_sub|].
  now apply handle_missing_values_wf, handle_dates_wf.
Qed.

Lemma clean_data_drop_dates (df : DataFrame) (rd : bool) (j : nat) :
  well_formed df -> col_index "date" (columns df) = Some j ->
  Forall is_time (col_values j (clean_data df rd "drop" true)).
Proof.
  intros Hwf Hj.
  set (out := clean_data df rd "drop" true).
  destruct (dated_column Hwf Hj) as [Hst Hcells].
  injection Hst as _ Hvals.
  assert (Hsub : sub_frame out (update_col j Datetime64 to_datetime_cell df)).
  { unfold out, clean_data.
    eapply sub_frame_trans; [apply remove_duplicate_rows_sub|].
    eapply sub_frame_trans; [|apply (handle_dates_sub "drop" df Hj)].
    apply dropna_sub. }
  assert (Hna : Forall time_or_na (col_values j out)).
  { apply (@sub_frame_values _ j _ _ Hsub). now rewrite Hvals. }
  assert (H0 : null_count (col_values j out) = 0%nat).
  { apply no_null_row_column.
    - now apply clean_data_wf.
    - unfold out, column_names.
      rewrite <- (length_map fst). fold (column_names (clean_data df rd "drop" true)).
      rewrite clean_data_names. unfold column_names. rewrite length_map.
      now destruct (col_index_Some _ _ Hj).
    - intros r. apply clean_data_drop_rows. }
  apply null_count_zero in H0.
  rewrite Forall_forall in *. intros c Hc.
  specialize (Hna c Hc). specialize (H0 c Hc). now destruct c.
Qed.

(** X29. A frame cleaned under the drop policy passes the checks: the
    checker finds no missing value in it, no duplicate row when duplicates
    were removed, and no invalid date. *)
Theorem cleaned_frame_passes_checks (df : DataFrame) (remove_duplicates : bool) :
  well_formed df ->
  let out := clean_data df remove_duplicates "drop" true in
  match check_data_quality out with
  | Ok report =>
      missing_values report = None /\
      (if remove_duplicates then fst (fst (duplicates report)) = 0%nat
       else True) /\
      date_quality report
      = (if has_column "date" df then Some (Some (len out, 0%nat)) else None)
  | Raise _ => True
  end.
Proof.
  intros Hwf out.
  assert (Hmiss : missing_report out = None).
  { apply missing_report_none. intros j Hj. apply no_null_row_column.
    - now apply clean_data_wf.
    - exact Hj.
    - intros r. apply clean_data_drop_rows. }
  assert (Hdup : if remove_duplicates
                 then count_true (duplicated out) = 0%nat else True).
  { destruct remove_duplicates; [|exact I].
    unfold out, clean_data. simpl remove_duplicate_rows.
    unfold drop_duplicates, duplicated. simpl rows.
    apply (duplicated_after_dedup []). }
  assert (Hdate : date_report out
                  = if has_column "date" df
                    then Some (Some (len out, 0%nat)) else None).
  { unfold date_report, has_column.
    rewrite (col_index_columns "date" out df (clean_data_names _ _ _ _)).
    destruct (col_index "date" (columns df)) as [j|] eqn:Hj; [|reflexivity].
    cbv zeta.
    destruct (to_datetime_times (clean_data_drop_dates remove_duplicates Hwf Hj))
      as [H0 Hlen].
    fold out in H0, Hlen. rewrite H0, Hlen.
    unfold col_values, len. now rewrite length_map. }
  unfold check_data_quality.
  destruct (getitem out "headline"); [|exact I]. simpl.
  destruct (getitem out "url"); [|exact I]. simpl.
  split; [exact Hmiss|]. split; [|exact Hdate].
  destruct remove_duplicates; [exact Hdup | exact I].
Qed.

End CleanedFrame.

Lemma cleaned_frame_passes_checks_witness :
  well_formed (@frame_of_csv pipeline_env
                 ["headline"; "url"; "publisher"; "date"]
                 [["Stocks up"; "u1"; "a@b.com"; "2020-02-29"];
                  ["Stocks up"; "u1"; "a@b.com"; "2020-02-29"];
                  ["Bonds down"; "u2"; EmptyString; "soon"]]) /\
  exists report,
    @check_data_quality pipeline_env
      (@clean_data pipeline_env
         (@frame_of_csv pipeline_env
            ["headline"; "url"; "publisher"; "date"]
            [["Stocks up"; "u1"; "a@b.com"; "2020-02-29"];
             ["Stocks up"; "u1"; "a@b.com"; "2020-02-29"];
             ["Bonds down"; "u2"; EmptyString; "soon"]])
         true "drop" true)
    = Ok report /\
    missing_values report = None /\
    fst (fst (duplicates report)) = 0%nat /\
    date_quality report = Some (Some (1%nat, 0%nat)).
Proof.
  assert (Hwf : well_formed (@frame_of_csv pipeline_env
                 ["headline"; "url"; "publisher"; "date"]
                 [["Stocks up"; "u1"; "a@b.com"; "2020-02-29"];
                  ["Stocks up"; "u1"; "a@b.com"; "2020-02-29"];
                  ["Bonds down"; "u2"; EmptyString; "soon"]]))
    by (repeat constructor).
  split; [exact Hwf|].
  pose proof (@cleaned_frame_passes_checks pipeline_env _ true Hwf) as H.
  cbv zeta in H.
  destruct (@check_data_quality pipeline_env _) as [report|e] eqn:E in H;
    [|vm_compute in E; discriminate E].
  exists report. split; [exact E|]. exact H.
Defined.

(** ** Spikes and the threshold *)

Lemma subseq_filter_impl {A : Type} (f g : A -> bool) (l : list A) :
  (forall x, f x = true -> g x = true) -> subseq (filter f l) (filter g l).
Proof.
  intros H. induction l as [|x t IH]; simpl; [constructor|].
  destruct (f x) eqn:Ef.
  - rewrite (H x Ef). now constructor.
  - destruct (g x); [now apply subseq_drop | exact IH].
Qed.

Lemma above_threshold_monotone (mean k k' var x : Q) :
  0 <= var -> k <= k' ->
  above_threshold mean k' var x = true -> above_threshold mean k var x = true.
Proof.
  intros Hv Hk. rewrite !(above_threshold_real _ _ _ Hv).
  apply Qle_Rle in Hk.
  pose proof (sqrt_pos (Q2R var)) as Hs.
  intros H.
  assert (Hm : (Q2R k * sqrt (Q2R var) <= Q2R k' * sqrt (Q2R var))%R)
    by (apply Rmult_le_compat_r; assumption).
  Lra.lra.
Qed.

(** X30. A higher threshold factor gives fewer spikes: the spikes at the
    higher factor are spikes at the lower one, in the same order. *)
Theorem identify_spikes_monotone {L : Type} (series : list (L * option Q))
  (k k' : Q) :
  k <= k' ->
  subseq (identify_spikes series k') (identify_spikes series k).
Proof.
  intros Hk. unfold identify_spikes.
  destruct (series_mean (map snd series)) as [m|]; [|constructor].
  destruct (series_var (map snd series)) as [var|] eqn:Ev; [|constructor].
  apply subseq_filter_impl. intros [i [x|]]; simpl; [|discriminate].
  apply above_threshold_monotone; [|exact Hk].
  exact (series_var_nonneg _ Ev).
Qed.

Lemma identify_spikes_monotone_witness :
  1 <= 2 /\
  subseq (identify_spikes [(0%nat, Some 1%Q); (1%nat, Some 1%Q);
                           (2%nat, Some 1%Q); (3%nat, Some 9%Q)] 2)
         (identify_spikes [(0%nat, Some 1%Q); (1%nat, Some 1%Q);
                           (2%nat, Some 1%Q); (3%nat, Some 9%Q)] 1).
Proof.
  assert (H : 1 <= 2) by (intros E; discriminate E).
  split; [exact H|].
  exact (@identify_spikes_monotone nat _ 1 2 H).
Defined.
